(** * strapi-plugin-io: the SocketIO structure

    A shallow embedding of [server/structures/SocketIO.js]: the class that
    wraps the socket.io server, selects its adapter at construction, and
    offers two emission surfaces, [emit] (permission-filtered broadcast) and
    [raw].

    The collaborators the class calls (the permission engine, the sanitize,
    transform and strategy services, the socket.io server) live outside the
    file.  They are taken as oracles over an abstract outside world: each call
    may change the world, may throw, and is written to a trace, so that the
    theorems can speak about which calls a run makes, in which order and with
    which arguments. *)

From Stdlib Require Import ZArith List String Ascii Bool Lia Arith.
From Stdlib Require Import Floats.SpecFloat DecimalString.
Import ListNotations.

Set Warnings "-register-all".

Local Open Scope string_scope.
Local Open Scope list_scope.

(** ** JavaScript values *)

Module Js.

(** The values the class handles.  Numbers are IEEE 754 doubles, objects
    are kept as their own enumerable properties in property order, and a
    function is known by reference only. *)
Inductive Value : Type :=
| Undefined
| Null
| Boolean (b : bool)
| Number (x : spec_float)
| BigInt (z : Z)
| Str (s : string)
| Function (ref : nat)
| Array (items : list Value)
| Object (props : list (string * Value)).

Definition Props : Type := list (string * Value).

Definition NaN : Value := Number S754_nan.
Definition zero : Value := Number (S754_zero false).
Definition minus_zero : Value := Number (S754_zero true).

(** ToBoolean, the test behind [!v] and [if (v)]. *)
Definition to_boolean (v : Value) : bool :=
  match v with
  | Undefined | Null => false
  | Boolean b => b
  | Number (S754_zero _) | Number S754_nan => false
  | Number _ => true
  | BigInt z => negb (Z.eqb z 0)
  | Str s => negb (String.eqb s "")
  | Function _ | Array _ | Object _ => true
  end.

(** [o.k] on an object held as a property list: [undefined] when absent. *)
Fixpoint get (k : string) (o : Props) : Value :=
  match o with
  | [] => Undefined
  | (k', v) :: rest => if String.eqb k k' then v else get k rest
  end.

Definition index_key (i : nat) : string :=
  NilEmpty.string_of_uint (Nat.to_uint i).

Fixpoint indexed {A : Type} (f : A -> Value) (i : nat) (l : list A) : Props :=
  match l with
  | [] => []
  | x :: rest => (index_key i, f x) :: indexed f (S i) rest
  end.

Fixpoint chars (s : string) : list ascii :=
  match s with
  | EmptyString => []
  | String c rest => c :: chars rest
  end.

(** The own enumerable properties that a spread [...v] copies: those of
    an object, the indexed elements of an array, the indexed characters of
    a string, and nothing for the other values. *)
Definition own_props (v : Value) : Props :=
  match v with
  | Object props => props
  | Array items => indexed (fun x => x) 0 items
  | Str s => indexed (fun c => Str (String c EmptyString)) 0 (chars s)
  | _ => []
  end.

(** The object literal [{ ...v }]. *)
Definition spread (v : Value) : Value := Object (own_props v).

(** The shorthand object literal [{ data }]. *)
Definition wrap_data (data : Value) : Value := Object [("data", data)].

Definition is_object (v : Value) : bool :=
  match v with Object _ => true | _ => false end.

(** [String.prototype.replace] with a one-character search string and a
    one-character replacement: only the first match is replaced. *)
Fixpoint replace (search replacement : ascii) (s : string) : string :=
  match s with
  | EmptyString => EmptyString
  | String c rest =>
      if Ascii.eqb c search then String replacement rest
      else String c (replace search replacement rest)
  end.


End Js.

(** ** Results, outcomes and the call monad *)

(** What a JavaScript call gives back: a value, or a thrown value (for an
    [async] call: the promise fulfils or rejects, seen after [await]). *)
Inductive Result (A : Type) : Type :=
| Ok (a : A)
| Throw (e : Js.Value).

Arguments Ok {A} a.
Arguments Throw {A} e.

Definition is_ok {A : Type} (r : Result A) : bool :=
match r with Ok _ => true | Throw _ => false end.

(** The schema descriptor handed to [emit]. *)
Record Schema : Type := {
  singularName : string;
  uid : string
}.

(** A room as a strategy produces it.  [permissions] holds permission
    objects, each kept as its property list; [fields] is whatever else the
    strategy stores on the room (an id, a name, a token). *)
Record Room : Type := {
  type : string;
  permissions : list Js.Props;
  fields : Js.Props
}.

(** The emitter a message is sent through: the chain of room selectors put on
    the server by successive [.to(r)] calls, in call order.  The empty chain
    is the server itself, which emits to every connected client. *)
Definition Emitter : Type := list string.

Definition _socket : Emitter := [].

Definition to (emitter : Emitter) (r : string) : Emitter := emitter ++ [r].

(** The arrow function [({ action }) => ({ action })] on one permission. *)
Definition project_action (permission : Js.Props) : Js.Value :=
Js.Object [("action", Js.get "action" permission)].

Section Broadcaster.

(** The outside world the collaborators read and change (active sessions,
    the permission engine, the transport), and the ability objects of the
    permission engine. *)
Context {W : Type} {Ability : Type}.

(** The [auth] object given to the sanitize service. *)
Record Auth : Type := {
  auth_name : Js.Value;
  auth_ability : Ability;
  auth_strategy_verify : Js.Value;
  auth_credentials : Js.Value
}.

(** The argument of [sanitizeService.output]. *)
Record SanitizeArgs : Type := {
  sanitize_data : Js.Value;
  sanitize_schema : Schema;
  sanitize_auth : Auth
}.

(** One entry of the strategy service. *)
Record Strategy : Type := {
  name : Js.Value;
  verify : Js.Value;
  getRooms : W -> Result (list Room) * W;
  getRoomName : Room -> W -> Result string * W;
  credentials : option (Room -> W -> Result Js.Value * W)
}.

(** Everything the class reaches through [strapi], [getService], the
    constants module and [this._socket].  [strategyService] lists the own
    enumerable properties of the strategy service in property order, the
    order [for ... in] visits them.  [FULL_ACCESS] is
    [API_TOKEN_TYPE.FULL_ACCESS], whose defining module is not part of the
    file. *)
Record Host : Type := {
  FULL_ACCESS : string;
  generateAbility : list Js.Value -> W -> Result Ability * W;
  can : Ability -> string -> bool;
  sanitize_output : SanitizeArgs -> W -> Result Js.Value * W;
  transform_response : Js.Value -> Schema -> W -> Result Js.Value * W;
  strategyService : list (string * Strategy);
  socket_emit : Emitter -> string -> Js.Value -> W -> Result unit * W
}.

(** A call made to a collaborator, with what it was given and what it gave
    back. *)
Inductive Call : Type :=
| CGetRooms (strategyType : string) (r : Result (list Room))
| CGenerateAbility (permissions : list Js.Value) (r : Result Ability)
| CCan (ability : Ability) (key : string) (r : bool)
| CCredentials (strategyType : string) (room : Room) (r : Result Js.Value)
| CSanitize (args : SanitizeArgs) (r : Result Js.Value)
| CGetRoomName (strategyType : string) (room : Room) (r : Result string)
| CTransform (data : Js.Value) (schema : Schema) (r : Result Js.Value)
| CEmit (target : Emitter) (eventName : string) (payload : Js.Value) (r : Result unit).

(** A finished run: its result, the world it leaves, and the calls it made,
    oldest first.  A throw keeps the world and the calls made so far. *)
Record Outcome (A : Type) : Type := {
  result : Result A;
  world : W;
  trace : list Call
}.

Arguments result {A} o.
Arguments world {A} o.
Arguments trace {A} o.

Definition M (A : Type) : Type := W -> Outcome A.

Definition ret {A : Type} (a : A) : M A :=
fun w => {| result := Ok a; world := w; trace := [] |}.

(** The outcome [o] of a later step, seen after the calls [t] of the steps
    before it. *)
Definition prepend_trace {A : Type} (t : list Call) (o : Outcome A) : Outcome A :=
{| result := result o; world := world o; trace := t ++ trace o |}.

Definition bind {A B : Type} (m : M A) (f : A -> M B) : M B :=
fun w =>
  match result (m w) with
  | Ok a => prepend_trace (trace (m w)) (f a (world (m w)))
  | Throw e => {| result := Throw e; world := world (m w); trace := trace (m w) |}
  end.

(** An oracle call, written to the trace. *)
Definition call {A : Type} (f : W -> Result A * W) (entry : Result A -> Call) : M A :=
fun w =>
  let rw := f w in
  {| result := fst rw; world := snd rw; trace := [entry (fst rw)] |}.

(** A pure call that is still worth a trace entry. *)
Definition note {A : Type} (a : A) (entry : Call) : M A :=
fun w => {| result := Ok a; world := w; trace := [entry] |}.

End Broadcaster.

Arguments Auth : clear implicits.
Arguments SanitizeArgs : clear implicits.
Arguments Strategy : clear implicits.
Arguments Host : clear implicits.
Arguments Call : clear implicits.
Arguments Outcome : clear implicits.
Arguments M : clear implicits.
Arguments result {W Ability A} o.
Arguments world {W Ability A} o.
Arguments trace {W Ability A} o.

Declare Scope js_scope.
Delimit Scope js_scope with js.

Notation "x <- m ;; k" := (bind m (fun x => k))
  (at level 100, m at next level, right associativity) : js_scope.
Notation "m ;; k" := (bind m (fun _ => k))
  (at level 100, right associativity) : js_scope.

(** ** The two emission surfaces: [emit] and [raw] *)

Section SocketIO.

Context {W : Type} {Ability : Type}.
Variable host : Host W Ability.

Local Open Scope js_scope.

Definition call_getRooms (strategyType : string) (strategy : Strategy W) : M W Ability (list Room) :=
call (getRooms strategy) (CGetRooms strategyType).

Definition call_generateAbility (perms : list Js.Value) : M W Ability Ability :=
call (generateAbility host perms) (CGenerateAbility perms).

Definition call_can (ability : Ability) (key : string) : M W Ability bool :=
note (can host ability key) (CCan ability key (can host ability key)).

(** [strategy.credentials?.(room)]: [undefined] without a call when the
    strategy has no [credentials]. *)
Definition call_credentials (strategyType : string) (strategy : Strategy W) (room : Room)
  : M W Ability Js.Value :=
match credentials strategy with
| None => ret Js.Undefined
| Some f => call (f room) (CCredentials strategyType room)
end.

Definition call_sanitize (args : SanitizeArgs Ability) : M W Ability Js.Value :=
call (sanitize_output host args) (CSanitize args).

Definition call_getRoomName (strategyType : string) (strategy : Strategy W) (room : Room)
  : M W Ability string :=
call (getRoomName strategy room) (CGetRoomName strategyType room).

Definition call_transform (data : Js.Value) (schema : Schema) : M W Ability Js.Value :=
call (transform_response host data schema) (CTransform data schema).

Definition call_emit (target : Emitter) (eventName : string) (payload : Js.Value)
  : M W Ability unit :=
call (socket_emit host target eventName payload) (CEmit target eventName payload).

(** The wire event name, [`${schema.singularName}:${event}`]. *)
Definition wire_event (schema : Schema) (event : string) : string :=
singularName schema ++ ":" ++ event.

(** The capability key, [schema.uid + '.' + event]. *)
Definition capability_key (schema : Schema) (event : string) : string :=
uid schema ++ "." ++ event.

(** The condition of the [if]:
    [room.type === API_TOKEN_TYPE.FULL_ACCESS || ability.can(...)].
    The right operand is evaluated only when the left one is false. *)
Definition admission (schema : Schema) (event : string) (room : Room) (ability : Ability)
  : M W Ability bool :=
if String.eqb (type room) (FULL_ACCESS host) then ret true
else call_can ability (capability_key schema event).

(** The body of [for (const room of rooms)]. *)
Definition emit_room (strategyType : string) (strategy : Strategy W)
  (event : string) (schema : Schema) (rawData : Js.Value) (room : Room)
  : M W Ability unit :=
let perms := map project_action (permissions room) in
ability <- call_generateAbility perms ;;
allowed <- admission schema event room ability ;;
if allowed : bool then
  creds <- call_credentials strategyType strategy room ;;
  sanitizedData <- call_sanitize
    {| sanitize_data := rawData;
       sanitize_schema := schema;
       sanitize_auth :=
         {| auth_name := name strategy;
            auth_ability := ability;
            auth_strategy_verify := verify strategy;
            auth_credentials := creds |} |} ;;
  roomName <- call_getRoomName strategyType strategy room ;;
  data <- call_transform sanitizedData schema ;;
  call_emit (to _socket (Js.replace " " "-" roomName)) (wire_event schema event)
    (Js.spread data)
else ret tt.

(** [for (const room of rooms) { ... }] *)
Fixpoint emit_rooms (strategyType : string) (strategy : Strategy W)
  (event : string) (schema : Schema) (rawData : Js.Value) (rooms : list Room)
  : M W Ability unit :=
match rooms with
| [] => ret tt
| room :: rest =>
    emit_room strategyType strategy event schema rawData room ;;
    emit_rooms strategyType strategy event schema rawData rest
end.

(** The body of [for (const strategyType in strategyService)]. *)
Definition emit_strategy (event : string) (schema : Schema) (rawData : Js.Value)
  (entry : string * Strategy W) : M W Ability unit :=
rooms <- call_getRooms (fst entry) (snd entry) ;;
emit_rooms (fst entry) (snd entry) event schema rawData rooms.

(** [for (const strategyType in strategyService) { ... }] *)
Fixpoint emit_strategies (event : string) (schema : Schema) (rawData : Js.Value)
  (entries : list (string * Strategy W)) : M W Ability unit :=
match entries with
| [] => ret tt
| entry :: rest =>
    emit_strategy event schema rawData entry ;;
    emit_strategies event schema rawData rest
end.

(** [async emit({ event, schema, data: rawData })].  The result is how the
    returned promise settles: [Ok] when it fulfils, [Throw] when it
    rejects. *)
Definition emit (event : string) (schema : Schema) (rawData : Js.Value)
  : M W Ability unit :=
if negb (Js.to_boolean rawData) then ret tt
else emit_strategies event schema rawData (strategyService host).

(** [rooms && rooms.length]: an absent [rooms] and an empty one are both
    falsy. *)
Definition has_rooms (rooms : option (list string)) : bool :=
match rooms with
| None => false
| Some l => negb (Nat.eqb (List.length l) 0)
end.

(** [rooms.forEach((r) => { emitter = emitter.to(r); })] *)
Definition chain_rooms (emitter : Emitter) (rooms : list string) : Emitter :=
fold_left to rooms emitter.

(** [async raw({ event, data, rooms })] *)
Definition raw (event : string) (data : Js.Value) (rooms : option (list string))
  : M W Ability unit :=
let emitter :=
  if has_rooms rooms
  then chain_rooms _socket (match rooms with Some l => l | None => [] end)
  else _socket in
call_emit emitter event (Js.wrap_data data).

(** *** Reading a trace *)

Definition is_emit (c : Call Ability) : bool :=
match c with CEmit _ _ _ _ => true | _ => false end.

Definition is_can (c : Call Ability) : bool :=
match c with CCan _ _ _ => true | _ => false end.

Definition is_generateAbility (c : Call Ability) : bool :=
match c with CGenerateAbility _ _ => true | _ => false end.

(** Sanitize and transform, the two steps of the payload pipeline. *)
Definition is_pipeline (c : Call Ability) : bool :=
match c with CSanitize _ _ | CTransform _ _ _ => true | _ => false end.

Definition emissions (t : list (Call Ability)) : list (Call Ability) :=
filter is_emit t.

Definition can_checks (t : list (Call Ability)) : list (Call Ability) :=
filter is_can t.

Definition ability_generations (t : list (Call Ability)) : list (Call Ability) :=
filter is_generateAbility t.

Definition pipeline_calls (t : list (Call Ability)) : list (Call Ability) :=
filter is_pipeline t.

(** How many rooms the [getRooms] calls of a trace handed over. *)
Fixpoint rooms_fetched (t : list (Call Ability)) : nat :=
match t with
| [] => 0
| CGetRooms _ (Ok rooms) :: rest => List.length rooms + rooms_fetched rest
| _ :: rest => rooms_fetched rest
end.

(** A run that did nothing: it returned, left the world as it was and made
    no call. *)
Definition quiet (o : Outcome W Ability unit) (w : W) : Prop :=
result o = Ok tt /\ world o = w /\ trace o = [].


(** The payload contract read literally: what reaches the wire is the very
    value the transform service returned. *)
Definition emits_transformed_as_is (event : string) (schema : Schema)
  (rawData : Js.Value) (w : W) : Prop :=
forall target eventName payload r,
  In (CEmit target eventName payload r) (trace (emit event schema rawData w)) ->
  exists data, In (CTransform data schema (Ok payload)) (trace (emit event schema rawData w)).

End SocketIO.

(** ** Adapter selection at construction *)

Module Adapter.

(** A client object of the [redis] package, known by reference. *)
Definition Client : Type := nat.

(** What can be handed to [this._socket.adapter(...)].  [InMemory] is the
    adapter a new socket.io server starts with, local to the process.
    [Redis pub sub] is what [createAdapter(pub, sub)] of
    [@socket.io/redis-adapter] builds, [None] standing for an argument left
    out; [Cluster] is what [createAdapter()] of [@socket.io/cluster-adapter]
    builds. *)
Inductive Factory : Type :=
| InMemory
| Redis (pubClient subClient : option Client)
| Cluster.

(** How the promise returned by [client.connect()] ends; [Pending] is a
    connection attempt that never settles. *)
Inductive Settled : Type :=
| Fulfilled
| Rejected (e : Js.Value)
| Pending.

Inductive Level : Type := Info | Warn | Error.

(** The calls the selector makes, with their results. *)
Inductive Call : Type :=
| Require (module : string) (r : Result unit)
| CreateClient (url : string) (r : Result Client)
| Duplicate (client : Client) (r : Result Client)
| OnError (client : Client)
| Connect (client : Client) (r : Result Settled)
| SetAdapter (factory : Factory) (r : Result unit)
| Log (level : Level) (message : string).

(** The process and the packages the selector runs against. *)
Record Runtime : Type := {
  production : bool;
  REDIS_URL : option string;
  require_redis : Result unit;
  require_cluster_adapter : Result unit;
  createClient : string -> Result Client;
  duplicate : Client -> Result Client;
  connect : Client -> Result Settled;
  socket_adapter : Factory -> Result unit
}.

(** Synchronous code of the selector: a result and the calls made. *)
Definition S (A : Type) : Type := (Result A * list Call)%type.

Definition ret {A : Type} (a : A) : S A := (Ok a, []).

Definition bind {A B : Type} (m : S A) (f : A -> S B) : S B :=
match fst m with
| Ok a => (fst (f a), snd m ++ snd (f a))
| Throw e => (Throw e, snd m)
end.

(** [try { body } catch (err) { handler(err) }] *)
Definition try_catch {A : Type} (body : S A) (handler : Js.Value -> S A) : S A :=
match fst body with
| Ok a => (Ok a, snd body)
| Throw e => (fst (handler e), snd body ++ snd (handler e))
end.

Definition call {A : Type} (r : Result A) (entry : Result A -> Call) : S A :=
(r, [entry r]).

Definition log (level : Level) (message : string) : S unit :=
(Ok tt, [Log level message]).

Declare Scope adapter_scope.
Delimit Scope adapter_scope with adapter.

Notation "x <- m ;; k" := (bind m (fun x => k))
  (at level 100, m at next level, right associativity) : adapter_scope.
Notation "m ;; k" := (bind m (fun _ => k))
  (at level 100, right associativity) : adapter_scope.

Local Open Scope adapter_scope.

(** The [createAdapter] bound at the top of the file:
    [const { createAdapter } = require('@socket.io/redis-adapter')]. *)
Definition createAdapter (pubClient subClient : option Client) : Factory :=
Redis pubClient subClient.

(** The [createAdapter] that [_setupDevelopmentAdapter] binds locally:
    [const { createAdapter } = require('@socket.io/cluster-adapter')]. *)
Definition cluster_createAdapter : Factory := Cluster.

Section Selector.

Variable rt : Runtime.

Definition set_adapter (factory : Factory) : S unit :=
call (socket_adapter rt factory) (SetAdapter factory).

(** [_fallbackToLocalAdapter()].  No [createAdapter] is bound inside the
    method, so the name is the one bound at the top of the file. *)
Definition _fallbackToLocalAdapter : S unit :=
log Warn "Socket.IO: Falling back to local adapter" ;;
set_adapter (createAdapter None None).

(** [Promise.all([p, q])] on two connection promises. *)
Definition promise_all (p q : Settled) : Settled :=
match p, q with
| Rejected e, _ => Rejected e
| _, Rejected e => Rejected e
| Fulfilled, Fulfilled => Fulfilled
| _, _ => Pending
end.

(** [promise.then(() => onFulfilled)]: how the new promise ends and the
    calls the handler makes. *)
Definition promise_then (p : Settled) (onFulfilled : S unit) : Settled * list Call :=
match p with
| Fulfilled =>
    match fst onFulfilled with
    | Ok _ => (Fulfilled, snd onFulfilled)
    | Throw e => (Rejected e, snd onFulfilled)
    end
| Rejected e => (Rejected e, [])
| Pending => (Pending, [])
end.

(** [promise.catch(err => onRejected(err))] *)
Definition promise_catch (p : Settled) (onRejected : Js.Value -> S unit)
  : Settled * list Call :=
match p with
| Rejected e =>
    match fst (onRejected e) with
    | Ok _ => (Fulfilled, snd (onRejected e))
    | Throw e' => (Rejected e', snd (onRejected e))
    end
| Fulfilled => (Fulfilled, [])
| Pending => (Pending, [])
end.

(** A run of the selector: how the method itself returns, how the promise
    chain it leaves behind ends ([None] when it started none; a [Rejected]
    chain is a rejection nobody handles), and the calls made, those of the
    chain after those of the method. *)
Record Run : Type := {
  returned : Result unit;
  chain : option Settled;
  calls : list Call
}.

(** The synchronous part of the [try] block of [_setupRedisAdapter]: up to
    the two [connect()] calls, whose promises it hands on. *)
Definition redis_try_block : S (Client * Client * Settled * Settled) :=
call (require_redis rt) (Require "redis") ;;
pubClient <- call (createClient rt
    (match REDIS_URL rt with Some url => url | None => "redis://localhost:6379" end))
  (CreateClient
    (match REDIS_URL rt with Some url => url | None => "redis://localhost:6379" end)) ;;
subClient <- call (duplicate rt pubClient) (Duplicate pubClient) ;;
(Ok tt, [OnError pubClient]) ;;
(Ok tt, [OnError subClient]) ;;
p <- call (connect rt pubClient) (Connect pubClient) ;;
q <- call (connect rt subClient) (Connect subClient) ;;
ret (pubClient, subClient, p, q).

(** The [.then(...)] handler of [_setupRedisAdapter]. *)
Definition redis_on_connected (pubClient subClient : Client) : S unit :=
set_adapter (createAdapter (Some pubClient) (Some subClient)) ;;
log Info "Socket.IO: Redis adapter connected".

(** The [.catch(...)] handler of [_setupRedisAdapter]. *)
Definition redis_on_failed (err : Js.Value) : S unit :=
log Error "Socket.IO: Redis connection failed" ;;
_fallbackToLocalAdapter.

(** The [catch (err)] block of [_setupRedisAdapter]. *)
Definition redis_on_missing (err : Js.Value) : S unit :=
log Error "Socket.IO: Redis dependencies missing" ;;
_fallbackToLocalAdapter.

(** [_setupRedisAdapter()] *)
Definition _setupRedisAdapter : Run :=
match fst redis_try_block with
| Ok (pubClient, subClient, p, q) =>
    let after_then :=
      promise_then (promise_all p q) (redis_on_connected pubClient subClient) in
    let after_catch := promise_catch (fst after_then) redis_on_failed in
    {| returned := Ok tt;
       chain := Some (fst after_catch);
       calls := snd redis_try_block ++ snd after_then ++ snd after_catch |}
| Throw err =>
    {| returned := fst (redis_on_missing err);
       chain := None;
       calls := snd redis_try_block ++ snd (redis_on_missing err) |}
end.

(** [_setupDevelopmentAdapter()] *)
Definition _setupDevelopmentAdapter : Run :=
let run :=
  try_catch
    (call (require_cluster_adapter rt) (Require "@socket.io/cluster-adapter") ;;
     set_adapter cluster_createAdapter ;;
     log Info "Socket.IO: Using development cluster adapter")
    (fun err => log Warn "Socket.IO: Running without cluster adapter") in
{| returned := fst run; chain := None; calls := snd run |}.

(** The adapter selection that ends the constructor:
    [if (process.env.NODE_ENV === 'production') ... else ...]. *)
Definition setup_adapter : Run :=
if production rt then _setupRedisAdapter else _setupDevelopmentAdapter.

End Selector.

(** The factory in place after a run: the last one whose installation
    returned, or the in-memory adapter the server started with. *)
Fixpoint adapter_in_place (start : Factory) (cs : list Call) : Factory :=
match cs with
| [] => start
| SetAdapter factory (Ok _) :: rest => adapter_in_place factory rest
| _ :: rest => adapter_in_place start rest
end.

(** The selector let nothing escape: the method returned and left no
    rejected promise behind. *)
Definition contained (run : Run) : bool :=
is_ok (returned run) &&
match chain run with
| Some (Rejected _) => false
| _ => true
end.

End Adapter.

(** ** Concrete hosts

    Small instances on which the general statements are run: a permission
    engine whose abilities are the lists of granted action keys, a single
    outside world, and strategies with fixed rooms. *)

Module Demo.

Definition article : Schema :=
{| singularName := "article"; uid := "api::article.article" |}.

Definition full_room : Room :=
{| type := "full-access";
   permissions := [];
   fields := [("name", Js.Str "Full Access")] |}.

Definition scoped_room : Room :=
{| type := "custom";
   permissions :=
     [[("action", Js.Str "api::article.article.find"); ("id", Js.BigInt 7)]];
   fields := [("name", Js.Str "Read Only Token")] |}.

Definition action_of (permission : Js.Value) : list string :=
match permission with
| Js.Object props =>
    match Js.get "action" props with
    | Js.Str s => [s]
    | _ => []
    end
| _ => []
end.

Definition engine (perms : list Js.Value) (w : unit) : Result (list string) * unit :=
(Ok (flat_map action_of perms), w).

Definition granted (ability : list string) (key : string) : bool :=
existsb (String.eqb key) ability.

Definition room_name (room : Room) (w : unit) : Result string * unit :=
match Js.get "name" (fields room) with
| Js.Str s => (Ok s, w)
| _ => (Throw (Js.Str "TypeError"), w)
end.

Definition strategy_of (rooms : Result (list Room)) : Strategy unit :=
{| name := Js.Str "io-tokens";
   verify := Js.Function 1;
   getRooms := fun w => (rooms, w);
   getRoomName := room_name;
   credentials := Some (fun room w => (Ok (Js.Object (fields room)), w)) |}.

Definition boom : Js.Value := Js.Str "session store unreachable".

Definition entity : Js.Value :=
Js.Object [("id", Js.BigInt 1); ("title", Js.Str "Hello")].

Definition wrap_response (data : Js.Value) : Js.Value :=
Js.Object [("data", data); ("meta", Js.Object [])].

Definition host_of (strategies : list (string * Strategy unit))
  (transform : Js.Value -> Js.Value) : Host unit (list string) :=
{| FULL_ACCESS := "full-access";
   generateAbility := engine;
   can := granted;
   sanitize_output := fun args w => (Ok (sanitize_data args), w);
   transform_response := fun data _ w => (Ok (transform data), w);
   strategyService := strategies;
   socket_emit := fun _ _ _ w => (Ok tt, w) |}.

Definition tokens : Strategy unit := strategy_of (Ok [full_room; scoped_room]).

(** One strategy, one full-access room and one scoped room. *)
Definition host : Host unit (list string) :=
host_of [("token", tokens)] wrap_response.

(** A strategy whose [getRooms] rejects, registered before a healthy one. *)
Definition host_with_failing_strategy : Host unit (list string) :=
host_of [("role", strategy_of (Throw boom)); ("token", tokens)] wrap_response.



(** A transform service that answers [null]. *)
Definition host_with_null_transform : Host unit (list string) :=
host_of [("token", strategy_of (Ok [full_room]))] (fun _ => Js.Null).

(** Production, with the [redis] package missing; installing an adapter
    succeeds or throws as [adapter_call] says. *)
Definition runtime_without_redis (adapter_call : Adapter.Factory -> Result unit)
  : Adapter.Runtime :=
{| Adapter.production := true;
   Adapter.REDIS_URL := None;
   Adapter.require_redis := Throw (Js.Str "Cannot find module 'redis'");
   Adapter.require_cluster_adapter := Ok tt;
   Adapter.createClient := fun _ => Ok 1;
   Adapter.duplicate := fun _ => Ok 2;
   Adapter.connect := fun _ => Ok Adapter.Fulfilled;
   Adapter.socket_adapter := adapter_call |}.

(** An adapter call that throws when the Redis adapter comes without
    clients. *)
Definition needs_clients (factory : Adapter.Factory) : Result unit :=
match factory with
| Adapter.Redis None _ | Adapter.Redis _ None =>
    Throw (Js.Str "TypeError: Cannot read properties of undefined")
| _ => Ok tt
end.

(** Production, with a broker that refuses the connection. *)
Definition runtime_with_refused_connection : Adapter.Runtime :=
{| Adapter.production := true;
   Adapter.REDIS_URL := Some "redis://broker:6379";
   Adapter.require_redis := Ok tt;
   Adapter.require_cluster_adapter := Ok tt;
   Adapter.createClient := fun _ => Ok 1;
   Adapter.duplicate := fun _ => Ok 2;
   Adapter.connect := fun _ => Ok (Adapter.Rejected (Js.Str "ECONNREFUSED"));
   Adapter.socket_adapter := fun _ => Ok tt |}.

(** Not production, with the cluster adapter package missing. *)
Definition runtime_without_cluster : Adapter.Runtime :=
{| Adapter.production := false;
   Adapter.REDIS_URL := None;
   Adapter.require_redis := Ok tt;
   Adapter.require_cluster_adapter :=
     Throw (Js.Str "Cannot find module '@socket.io/cluster-adapter'");
   Adapter.createClient := fun _ => Ok 1;
   Adapter.duplicate := fun _ => Ok 2;
   Adapter.connect := fun _ => Ok Adapter.Fulfilled;
   Adapter.socket_adapter := fun _ => Ok tt |}.

End Demo.

(** ** The constructor *)

Module Construct.

(** A number literal of the source, as the double it denotes. *)
Definition number (z : Z) : Js.Value :=
Js.Number (binary_normalize 53 1024 z 0 false).

(** A property definition inside an object literal, after the properties
    written before it: an existing key keeps its place and takes the new
    value, a new key goes to the end. *)
Fixpoint set_prop (k : string) (v : Js.Value) (o : Js.Props) : Js.Props :=
match o with
| [] => [(k, v)]
| (k', v') :: rest =>
    if String.eqb k k' then (k, v) :: rest else (k', v') :: set_prop k v rest
end.

(** The keys the constructor writes in production, with their values. *)
Definition production_settings : list (string * Js.Value) :=
[("connectionStateRecovery",
  Js.Object [("maxDisconnectionDuration", number (5 * 60 * 1000));
             ("skipMiddlewares", Js.Boolean true)]);
 ("transports", Js.Array [Js.Str "websocket"]);
 ("allowEIO3", Js.Boolean true);
 ("pingTimeout", number 30000);
 ("pingInterval", number 25000)].

(** [finalOptions]: the caller's [options] as they are, or in production
    [{ ...options, connectionStateRecovery: ..., transports: ..., ... }]. *)
Definition finalOptions (production : bool) (options : Js.Value) : Js.Value :=
if production
then Js.Object
       (fold_left (fun o kv => set_prop (fst kv) (snd kv) o)
          production_settings (Js.own_props options))
else options.

(** What the constructor reaches besides the adapter packages:
    [new Server(strapi.server.httpServer, finalOptions)], and the [init] hook
    of the plugin configuration.  [init_hook] is what reading
    [strapi.config.get(...)] and [hooks.init] gives: the read can throw, the
    hook can be missing ([None]), and a hook that is there returns or
    throws. *)
Record Strapi : Type := {
  new_server : Js.Value -> Result unit;
  init_hook : Result (option (Result unit));
  runtime : Adapter.Runtime
}.

(** The calls of the constructor, those of the adapter selection included. *)
Inductive Call : Type :=
| NewServer (options : Js.Value) (r : Result unit)
| ReadHooks (r : Result (option (Result unit)))
| HookInit (r : Result unit)
| Select (c : Adapter.Call).

Record Run : Type := {
  returned : Result unit;
  chain : option Adapter.Settled;
  calls : list Call
}.

(** [hooks.init?.({ strapi, $io: this })] *)
Definition run_init (hook : option (Result unit)) : Result unit * list Call :=
match hook with
| None => (Ok tt, [])
| Some r => (r, [HookInit r])
end.

(** [constructor(options)].  [NODE_ENV] is read for the options and again for
    the adapter; the model takes the two reads to agree. *)
Definition constructor (strapi : Strapi) (options : Js.Value) : Run :=
let final := finalOptions (Adapter.production (runtime strapi)) options in
match new_server strapi final with
| Throw e =>
    {| returned := Throw e; chain := None;
       calls := [NewServer final (Throw e)] |}
| Ok _ =>
    match init_hook strapi with
    | Throw e =>
        {| returned := Throw e; chain := None;
           calls := [NewServer final (Ok tt); ReadHooks (Throw e)] |}
    | Ok hook =>
        match fst (run_init hook) with
        | Throw e =>
            {| returned := Throw e; chain := None;
               calls := NewServer final (Ok tt) :: ReadHooks (Ok hook)
                        :: snd (run_init hook) |}
        | Ok _ =>
            let selection := Adapter.setup_adapter (runtime strapi) in
            {| returned := Adapter.returned selection;
               chain := Adapter.chain selection;
               calls := NewServer final (Ok tt) :: ReadHooks (Ok hook)
                        :: snd (run_init hook)
                        ++ map Select (Adapter.calls selection) |}
        end
    end
end.

Definition is_select (c : Call) : bool :=
match c with Select _ => true | _ => false end.

End Construct.

(** ** More readings of a trace *)

Section Readings.

Context {Ability : Type}.

(** The strategies asked for their rooms, in call order. *)
Fixpoint asked (t : list (Call Ability)) : list string :=
match t with
| [] => []
| CGetRooms strategyType _ :: rest => strategyType :: asked rest
| _ :: rest => asked rest
end.



Definition is_strategy_callback (c : Call Ability) : bool :=
match c with CCredentials _ _ _ | CGetRoomName _ _ _ => true | _ => false end.

End Readings.

(** How often [c] occurs in [s]. *)
Fixpoint occurrences (c : ascii) (s : string) : nat :=
match s with
| EmptyString => 0
| String c' rest => (if Ascii.eqb c' c then 1 else 0) + occurrences c rest
end.

(** The redis URL the selector connects to:
    [process.env.REDIS_URL || 'redis://localhost:6379'] for a URL that is set
    and not empty, or not set. *)
Definition redis_url (rt : Adapter.Runtime) : string :=
match Adapter.REDIS_URL rt with
| Some url => url
| None => "redis://localhost:6379"
end.

(** The synchronous calls of a production selection whose clients are
    created and whose [connect()] calls return promises. *)
Definition redis_sync_calls (rt : Adapter.Runtime) (pubClient subClient : Adapter.Client)
  (p q : Adapter.Settled) : list Adapter.Call :=
[Adapter.Require "redis" (Ok tt);
 Adapter.CreateClient (redis_url rt) (Ok pubClient);
 Adapter.Duplicate pubClient (Ok subClient);
 Adapter.OnError pubClient;
 Adapter.OnError subClient;
 Adapter.Connect pubClient (Ok p);
 Adapter.Connect subClient (Ok q)].



(** The calls [_fallbackToLocalAdapter] makes. *)
Definition fallback_trace (rt : Adapter.Runtime) : list Adapter.Call :=
[Adapter.Log Adapter.Warn "Socket.IO: Falling back to local adapter";
 Adapter.SetAdapter (Adapter.Redis None None)
   (Adapter.socket_adapter rt (Adapter.Redis None None))].

(** Production, with a broker that accepts both connections. *)
Definition runtime_connected : Adapter.Runtime :=
{| Adapter.production := true;
   Adapter.REDIS_URL := None;
   Adapter.require_redis := Ok tt;
   Adapter.require_cluster_adapter := Ok tt;
   Adapter.createClient := fun _ => Ok 1;
   Adapter.duplicate := fun _ => Ok 2;
   Adapter.connect := fun _ => Ok Adapter.Fulfilled;
   Adapter.socket_adapter := fun _ => Ok tt |}.




(** A strapi whose init hook throws. *)
Definition strapi_with_failing_hook : Construct.Strapi :=
{| Construct.new_server := fun _ => Ok tt;
   Construct.init_hook := Ok (Some (Throw (Js.Str "init failed")));
   Construct.runtime := runtime_connected |}.

(** A strapi without init hook, outside production. *)
Definition strapi_development : Construct.Strapi :=
{| Construct.new_server := fun _ => Ok tt;
   Construct.init_hook := Ok None;
   Construct.runtime := Demo.runtime_without_cluster |}.


(** * Properties *)

(** ** JavaScript values *)

Lemma to_boolean_false_iff (v : Js.Value) :
  Js.to_boolean v = false <->
  v = Js.Undefined \/ v = Js.Null \/ v = Js.Boolean false \/
  (exists s, v = Js.Number (S754_zero s)) \/ v = Js.NaN \/
  v = Js.BigInt 0 \/ v = Js.Str "".
Proof.
  split.
  - destruct v as [| |b|x|z|s|f|items|props]; simpl; intros H; try discriminate; auto.
    + destruct b; [discriminate | auto].
    + destruct x as [s| | |]; try discriminate; [right; right; right; left; eauto | auto 10].
    + apply negb_false_iff, Z.eqb_eq in H. subst. auto 10.
    + apply negb_false_iff, String.eqb_eq in H. subst. auto 10.
  - intros [->|[->|[->|[[s ->]|[->|[->| ->]]]]]]; reflexivity.
Qed.

Lemma replace_without (search replacement : ascii) (s : string) :
  ~ In search (Js.chars s) -> Js.replace search replacement s = s.
Proof.
  induction s as [|c s IH]; simpl; intros H; [reflexivity|].
  destruct (Ascii.eqb_spec c search) as [->|_].
  - exfalso. apply H. now left.
  - f_equal. apply IH. intros Hin. apply H. now right.
Qed.

Lemma replace_first (search replacement : ascii) (pre post : string) :
  ~ In search (Js.chars pre) ->
  Js.replace search replacement (pre ++ String search post)%string
  = (pre ++ String replacement post)%string.
Proof.
  induction pre as [|c pre IH]; simpl; intros H.
  - now rewrite Ascii.eqb_refl.
  - destruct (Ascii.eqb_spec c search) as [->|_].
    + exfalso. apply H. now left.
    + f_equal. apply IH. intros Hin. apply H. now right.
Qed.

(** Every string either has no [search] character or splits at its first
    one. *)
Lemma first_occurrence (search : ascii) (s : string) :
  ~ In search (Js.chars s) \/
  exists pre post,
    s = (pre ++ String search post)%string /\ ~ In search (Js.chars pre).
Proof.
  induction s as [|c s IH]; simpl.
  - left. tauto.
  - destruct (Ascii.eqb_spec c search) as [->|Hc].
    + right. exists EmptyString, s. simpl. tauto.
    + destruct IH as [IH|(pre & post & -> & Hpre)].
      * left. intros [?|?]; tauto.
      * right. exists (String c pre), post. simpl. split; [reflexivity|].
        intros [?|?]; tauto.
Qed.



Lemma spread_object (v : Js.Value) : Js.is_object v = true -> Js.spread v = v.
Proof. destruct v; simpl; intros H; try discriminate. reflexivity. Qed.


(** ** The call monad *)

Section MonadFacts.

Context {W : Type} {Ability : Type}.


End MonadFacts.

(** Runs one collaborator call of the goal to its two ends. *)
Ltac oracle_step :=
  match goal with
  | H : ?f = (_, _) |- context [?f] => rewrite H; simpl
  | |- context [match fst ?x with _ => _ end] =>
      let r := fresh "r" in
      let w := fresh "w" in
      destruct x as [r w] eqn:?; destruct r; simpl
  | |- context [match credentials ?s with _ => _ end] =>
      destruct (credentials s) eqn:?; simpl
  | |- context [if String.eqb ?a ?b then _ else _] =>
      destruct (String.eqb_spec a b); simpl
  | |- context [if ?b then _ else _] => destruct b eqn:?; simpl
  end.

Ltac unfold_room :=
  unfold emit_room, admission, call_generateAbility, call_can, call_credentials,
    call_sanitize, call_getRoomName, call_transform, call_emit,
    bind, call, note, ret;
  simpl.

Ltac run_room := unfold_room; repeat oracle_step.

(** ** Processing one room *)

Section RoomFacts.

Context {W : Type} {Ability : Type}.
Variable host : Host W Ability.
Variables (strategyType : string) (strategy : Strategy W).
Variables (event : string) (schema : Schema) (rawData : Js.Value).

(** Processing a room opens with the generation of its ability, from the
    projected permissions. *)
Lemma emit_room_trace_head (room : Room) (w : W) :
  exists rest,
    trace (emit_room host strategyType strategy event schema rawData room w) =
    CGenerateAbility (map project_action (permissions room))
      (fst (generateAbility host (map project_action (permissions room)) w))
    :: rest.
Proof.
  unfold_room.
  destruct (generateAbility host (map project_action (permissions room)) w)
    as [[ability|e] w1]; simpl; eauto.
Qed.

(** The admission decision on one room: the short circuit for a
    [FULL_ACCESS] room, and emission exactly for the allowed rooms. *)
Lemma emit_room_gate (room : Room) (w : W) :
  let o := emit_room host strategyType strategy event schema rawData room w in
  (type room = FULL_ACCESS host -> can_checks (trace o) = []) /\
  (forall ability w1,
     generateAbility host (map project_action (permissions room)) w = (Ok ability, w1) ->
     let key := capability_key schema event in
     (emissions (trace o) <> [] ->
      type room = FULL_ACCESS host \/ can host ability key = true) /\
     (type room = FULL_ACCESS host \/ can host ability key = true ->
      result o = Ok tt ->
      exists target payload,
        emissions (trace o) = [CEmit target (wire_event schema event) payload (Ok tt)]) /\
     (type room <> FULL_ACCESS host -> can host ability key = false ->
      emissions (trace o) = [] /\ pipeline_calls (trace o) = [] /\
      can_checks (trace o) = [CCan ability key false] /\ result o = Ok tt)).
Proof.
  cbv zeta. split; [|intros ability w1 Hgen; split; [|split]].
  - intros Hfull. run_room; try reflexivity; congruence.
  - run_room; intros Hemitted; auto; exfalso; apply Hemitted; reflexivity.
  - intros Hallowed. run_room; intros Hreturns; try discriminate.
    all: try (destruct Hallowed; congruence).
    all: rewrite Hreturns; eauto.
  - intros Hscoped Hdeny. revert Hdeny. run_room; intros Hdeny; try congruence.
    all: auto.
Qed.

(** The calls around an emission: the sanitize call on the raw data with the
    room's own ability, the room name, the transform call on what sanitize
    gave, and the emission itself, one after the other. *)
Lemma emit_room_emission (room : Room) (w : W)
  (target : Emitter) (eventName : string) (payload : Js.Value) (r : Result unit) :
  In (CEmit target eventName payload r)
    (trace (emit_room host strategyType strategy event schema rawData room w)) ->
  exists before ability creds sanitized roomName transformed,
    trace (emit_room host strategyType strategy event schema rawData room w) =
    before ++
    [CSanitize
       {| sanitize_data := rawData;
          sanitize_schema := schema;
          sanitize_auth :=
            {| auth_name := name strategy;
               auth_ability := ability;
               auth_strategy_verify := verify strategy;
               auth_credentials := creds |} |} (Ok sanitized);
     CGetRoomName strategyType room (Ok roomName);
     CTransform sanitized schema (Ok transformed);
     CEmit target eventName payload r] /\
    In (CGenerateAbility (map project_action (permissions room)) (Ok ability)) before /\
    target = to _socket (Js.replace " " "-" roomName) /\
    eventName = wire_event schema event /\
    payload = Js.spread transformed.
Proof.
  run_room; intros Hin.
  all: repeat (destruct Hin as [Hin|Hin]; [try discriminate|]); try contradiction.
  all: inversion Hin; subst; clear Hin.
  all: match goal with
       | |- exists _ _ _ _ _ _, [?g; ?c1; ?c2; _; _; _; _] = _ /\ _ => exists [g; c1; c2]
       | |- exists _ _ _ _ _ _, [?g; ?c1; _; _; _; _] = _ /\ _ => exists [g; c1]
       | |- exists _ _ _ _ _ _, [?g; _; _; _; _] = _ /\ _ => exists [g]
       end.
  all: do 5 eexists; split; [reflexivity | split; [left; reflexivity | auto]].
Qed.

(** One ability generation per processed room, whatever happens next. *)
Lemma emit_room_generations (room : Room) (w : W) :
  ability_generations
    (trace (emit_room host strategyType strategy event schema rawData room w)) =
  [CGenerateAbility (map project_action (permissions room))
     (fst (generateAbility host (map project_action (permissions room)) w))].
Proof. run_room; reflexivity. Qed.

Lemma emit_room_rooms_fetched (room : Room) (w : W) :
  rooms_fetched
    (trace (emit_room host strategyType strategy event schema rawData room w)) = 0.
Proof. run_room; reflexivity. Qed.

(** The ability a room's check and a room's sanitize call see is the one
    generated for that room. *)
Lemma emit_room_ability_used (room : Room) (w : W) :
  let o := emit_room host strategyType strategy event schema rawData room w in
  let generated := fst (generateAbility host (map project_action (permissions room)) w) in
  (forall ability key r, In (CCan ability key r) (trace o) -> generated = Ok ability) /\
  (forall args r, In (CSanitize args r) (trace o) ->
     generated = Ok (auth_ability (sanitize_auth args))).
Proof.
  cbv zeta. split.
  - intros ability key r. run_room; intros Hin.
    all: repeat (destruct Hin as [Hin|Hin]; [try discriminate|]); try contradiction.
    all: inversion Hin; subst; reflexivity.
  - intros args r. run_room; intros Hin.
    all: repeat (destruct Hin as [Hin|Hin]; [try discriminate|]); try contradiction.
    all: inversion Hin; subst; reflexivity.
Qed.

(** The projection keeps one property of each permission, [action]. *)
Lemma project_action_only (perms : list Js.Props) :
  Forall (fun p => exists action, p = Js.Object [("action", action)])
    (map project_action perms).
Proof.
  induction perms as [|p perms IH]; simpl; constructor; auto.
  unfold project_action. eauto.
Qed.

End RoomFacts.

(** ** The two loops *)

Section LoopFacts.

Context {W : Type} {Ability : Type}.
Variable host : Host W Ability.
Variables (event : string) (schema : Schema) (rawData : Js.Value).

(** *** The first failure ends a loop *)



(** A strategy whose [getRooms] throws contributes that call and the
    failure. *)
Lemma emit_strategy_getRooms_throws (entry : string * Strategy W) (w : W) (e : Js.Value) :
  fst (getRooms (snd entry) w) = Throw e ->
  emit_strategy host event schema rawData entry w =
  {| result := Throw e;
     world := snd (getRooms (snd entry) w);
     trace := [CGetRooms (fst entry) (Throw e)] |}.
Proof.
  intros H. unfold emit_strategy, call_getRooms, bind, prepend_trace, call. simpl.
  now rewrite H.
Qed.

(** A strategy whose [getRooms] returns contributes that call and the
    processing of the rooms. *)
Lemma emit_strategy_getRooms_ok (entry : string * Strategy W) (w : W) (rooms : list Room) :
  fst (getRooms (snd entry) w) = Ok rooms ->
  let o := emit_rooms host (fst entry) (snd entry) event schema rawData rooms
             (snd (getRooms (snd entry) w)) in
  emit_strategy host event schema rawData entry w =
  {| result := result o;
     world := world o;
     trace := CGetRooms (fst entry) (Ok rooms) :: trace o |}.
Proof.
  intros H. unfold emit_strategy, call_getRooms, bind, prepend_trace, call. simpl.
  now rewrite H.
Qed.

(** *** Where the calls of a broadcast come from *)

Lemma emit_rooms_segments (k : string) (strategy : Strategy W)
  (rooms : list Room) (w : W) (c : Call Ability) :
  In c (trace (emit_rooms host k strategy event schema rawData rooms w)) ->
  exists l1 l2 room w',
    In room rooms /\
    trace (emit_rooms host k strategy event schema rawData rooms w) =
    l1 ++ trace (emit_room host k strategy event schema rawData room w') ++ l2 /\
    In c (trace (emit_room host k strategy event schema rawData room w')).
Proof.
  revert w. induction rooms as [|r rooms IH]; intros w; simpl.
  - contradiction.
  - unfold bind, prepend_trace.
    destruct (result (emit_room host k strategy event schema rawData r w)) eqn:Hr;
      simpl; intros Hin.
    + apply in_app_or in Hin. destruct Hin as [Hin|Hin].
      * exists [], (trace (emit_rooms host k strategy event schema rawData rooms
                   (world (emit_room host k strategy event schema rawData r w)))), r, w.
        simpl. auto.
      * destruct (IH _ Hin) as (l1 & l2 & room & w' & Hroom & Heq & Hc).
        exists (trace (emit_room host k strategy event schema rawData r w) ++ l1),
          l2, room, w'.
        rewrite Heq, <- app_assoc. auto.
    + exists [], [], r, w. simpl. rewrite app_nil_r. auto.
Qed.

(** Every call of a broadcast is a [getRooms] call or lies in the run of a
    room of a registered strategy, and that run is a stretch of the
    broadcast's trace. *)
Lemma emit_strategies_segments (entries : list (string * Strategy W))
  (w : W) (c : Call Ability) :
  In c (trace (emit_strategies host event schema rawData entries w)) ->
  (exists k r, c = CGetRooms k r) \/
  exists l1 l2 k strategy room w',
    In (k, strategy) entries /\
    trace (emit_strategies host event schema rawData entries w) =
    l1 ++ trace (emit_room host k strategy event schema rawData room w') ++ l2 /\
    In c (trace (emit_room host k strategy event schema rawData room w')).
Proof.
  revert w. induction entries as [|[k strategy] entries IH]; intros w; simpl.
  - contradiction.
  - unfold bind, prepend_trace.
    destruct (fst (getRooms strategy w)) as [rooms|e] eqn:Hget.
    + rewrite (emit_strategy_getRooms_ok (k, strategy) w rooms Hget). simpl.
      destruct (result (emit_rooms host k strategy event schema rawData rooms
                          (snd (getRooms strategy w)))) eqn:Hrooms; simpl.
      * intros [Hin|Hin]; [left; eauto|].
        apply in_app_or in Hin. destruct Hin as [Hin|Hin].
        -- right.
           destruct (emit_rooms_segments _ _ _ _ _ Hin)
             as (l1 & l2 & room & w' & _ & Heq & Hc).
           exists (CGetRooms k (Ok rooms) :: l1),
             (l2 ++ trace (emit_strategies host event schema rawData entries
                (world (emit_rooms host k strategy event schema rawData rooms
                   (snd (getRooms strategy w)))))),
             k, strategy, room, w'.
           rewrite Heq. simpl. rewrite <- !app_assoc. auto.
        -- destruct (IH _ Hin) as [?|(l1 & l2 & k' & s' & room & w' & Hk & Heq & Hc)];
             [left; assumption|].
           right.
           exists (CGetRooms k (Ok rooms) ::
                   trace (emit_rooms host k strategy event schema rawData rooms
                            (snd (getRooms strategy w))) ++ l1),
             l2, k', s', room, w'.
           rewrite Heq. simpl. rewrite <- !app_assoc. auto.
      * intros [Hin|Hin]; [left; eauto|].
        right.
        destruct (emit_rooms_segments _ _ _ _ _ Hin)
          as (l1 & l2 & room & w' & _ & Heq & Hc).
        exists (CGetRooms k (Ok rooms) :: l1), l2, k, strategy, room, w'.
        rewrite Heq. simpl. auto.
    + rewrite (emit_strategy_getRooms_throws (k, strategy) w e Hget). simpl.
      intros [Hin|[]]. left. eauto.
Qed.

(** *** Counting ability generations *)

Lemma ability_generations_app (l1 l2 : list (Call Ability)) :
  ability_generations (l1 ++ l2) = ability_generations l1 ++ ability_generations l2.
Proof. apply filter_app. Qed.

Lemma rooms_fetched_app (l1 l2 : list (Call Ability)) :
  rooms_fetched (l1 ++ l2) = rooms_fetched l1 + rooms_fetched l2.
Proof.
  induction l1 as [|c l1 IH]; simpl; [reflexivity|].
  destruct c as [k [rooms|e]| | | | | | |]; simpl; rewrite IH; lia.
Qed.

Lemma emit_rooms_generations (k : string) (strategy : Strategy W)
  (rooms : list Room) (w : W) :
  let o := emit_rooms host k strategy event schema rawData rooms w in
  List.length (ability_generations (trace o)) <= List.length rooms /\
  (result o = Ok tt ->
   List.length (ability_generations (trace o)) = List.length rooms) /\
  rooms_fetched (trace o) = 0.
Proof.
  cbv zeta. revert w. induction rooms as [|r rooms IH]; intros w; simpl.
  - auto.
  - unfold bind, prepend_trace.
    pose proof (emit_room_generations host k strategy event schema rawData r w) as Hgen.
    pose proof (emit_room_rooms_fetched host k strategy event schema rawData r w) as Hfetch.
    destruct (result (emit_room host k strategy event schema rawData r w)); simpl.
    + destruct (IH (world (emit_room host k strategy event schema rawData r w)))
        as (Hle & Heq & Hzero).
      rewrite ability_generations_app, rooms_fetched_app, length_app, Hgen, Hfetch, Hzero.
      simpl. repeat split; [lia | intros H; rewrite (Heq H); reflexivity].
    + rewrite Hgen, Hfetch. simpl. repeat split; [lia | discriminate].
Qed.

Lemma emit_strategies_generations (entries : list (string * Strategy W)) (w : W) :
  let o := emit_strategies host event schema rawData entries w in
  List.length (ability_generations (trace o)) <= rooms_fetched (trace o) /\
  (result o = Ok tt ->
   List.length (ability_generations (trace o)) = rooms_fetched (trace o)).
Proof.
  cbv zeta. revert w. induction entries as [|[k strategy] entries IH]; intros w; simpl.
  - auto.
  - unfold bind, prepend_trace.
    destruct (fst (getRooms strategy w)) as [rooms|e] eqn:Hget.
    + rewrite (emit_strategy_getRooms_ok (k, strategy) w rooms Hget). simpl.
      destruct (emit_rooms_generations k strategy rooms (snd (getRooms strategy w)))
        as (Hle & Heq & Hzero).
      destruct (result (emit_rooms host k strategy event schema rawData rooms
                          (snd (getRooms strategy w)))) as [[]|e] eqn:Hrooms; simpl.
      * destruct (IH (world (emit_rooms host k strategy event schema rawData rooms
                               (snd (getRooms strategy w))))) as (Hle' & Heq').
        rewrite ability_generations_app, rooms_fetched_app, length_app, Hzero.
        rewrite (Heq eq_refl).
        split; [lia | intros H; rewrite (Heq' H); lia].
      * rewrite Hzero. split; [lia | discriminate].
    + rewrite (emit_strategy_getRooms_throws (k, strategy) w e Hget). simpl.
      split; [lia | discriminate].
Qed.

End LoopFacts.

(** ** The broadcast as a whole *)

Section EmitFacts.

Context {W : Type} {Ability : Type}.
Variable host : Host W Ability.
Variables (event : string) (schema : Schema) (rawData : Js.Value).

Lemma emit_falsy (w : W) :
  Js.to_boolean rawData = false ->
  emit host event schema rawData w = {| result := Ok tt; world := w; trace := [] |}.
Proof. intros H. unfold emit. now rewrite H. Qed.

Lemma emit_truthy (w : W) :
  Js.to_boolean rawData = true ->
  emit host event schema rawData w =
  emit_strategies host event schema rawData (strategyService host) w.
Proof. intros H. unfold emit. now rewrite H. Qed.

(** Every emission of a broadcast closes a run of four calls: sanitize on
    the raw data, the room name, transform on what sanitize gave, and the
    emission to the sanitized room name. *)
Lemma emit_emission (w : W)
  (target : Emitter) (eventName : string) (payload : Js.Value) (r : Result unit) :
  In (CEmit target eventName payload r) (trace (emit host event schema rawData w)) ->
  exists l1 l2 k strategy room ability creds sanitized roomName transformed,
    In (k, strategy) (strategyService host) /\
    trace (emit host event schema rawData w) =
    l1 ++
    [CSanitize
       {| sanitize_data := rawData;
          sanitize_schema := schema;
          sanitize_auth :=
            {| auth_name := name strategy;
               auth_ability := ability;
               auth_strategy_verify := verify strategy;
               auth_credentials := creds |} |} (Ok sanitized);
     CGetRoomName k room (Ok roomName);
     CTransform sanitized schema (Ok transformed);
     CEmit target eventName payload r] ++ l2 /\
    In (CGenerateAbility (map project_action (permissions room)) (Ok ability)) l1 /\
    target = to _socket (Js.replace " " "-" roomName) /\
    eventName = wire_event schema event /\
    payload = Js.spread transformed.
Proof.
  destruct (Js.to_boolean rawData) eqn:Htruthy.
  - rewrite (emit_truthy w Htruthy). intros Hin.
    destruct (emit_strategies_segments host event schema rawData _ _ _ Hin)
      as [(k & r' & Hc)|(l1 & l2 & k & strategy & room & w' & Hk & Heq & Hc)];
      [discriminate|].
    destruct (emit_room_emission host k strategy event schema rawData room w' _ _ _ _ Hc)
      as (before & ability & creds & sanitized & roomName & transformed
          & Hroom & Hgen & Htarget & Hname & Hpayload).
    exists (l1 ++ before), l2, k, strategy, room, ability, creds, sanitized,
      roomName, transformed.
    rewrite Heq, Hroom, <- !app_assoc.
    repeat split; auto. apply in_or_app. now right.
  - rewrite (emit_falsy w Htruthy). simpl. contradiction.
Qed.

(** Every call of a broadcast other than [getRooms] lies in the run of one
    room of a registered strategy. *)
Lemma emit_segments (w : W) (c : Call Ability) :
  In c (trace (emit host event schema rawData w)) ->
  (exists k r, c = CGetRooms k r) \/
  exists l1 l2 k strategy room w',
    In (k, strategy) (strategyService host) /\
    trace (emit host event schema rawData w) =
    l1 ++ trace (emit_room host k strategy event schema rawData room w') ++ l2 /\
    In c (trace (emit_room host k strategy event schema rawData room w')).
Proof.
  destruct (Js.to_boolean rawData) eqn:Htruthy.
  - rewrite (emit_truthy w Htruthy). apply emit_strategies_segments.
  - rewrite (emit_falsy w Htruthy). simpl. contradiction.
Qed.

End EmitFacts.

(** ** Admission *)

(** C1. For every room processed during a broadcast: emission occurs for the
    room if and only if [room.type] is [FULL_ACCESS] or the ability generated
    from the room's permissions grants the key [schema.uid + "." + event].
    For a [FULL_ACCESS] room the capability check is never consulted; a room
    of another type whose ability denies the key is checked once and gets no
    pipeline call and no emission.  The "if" direction is for a room whose
    processing returns: a collaborator that throws on the way leaves the room
    without emission.  The calls of a broadcast other than [getRooms] are
    those of the rooms it processes, so the statement covers every emission
    and every capability check of the broadcast. *)
Theorem emit_room_admission {W Ability : Type} (host : Host W Ability)
  (event : string) (schema : Schema) (rawData : Js.Value) :
  (forall strategyType strategy room w,
     let o := emit_room host strategyType strategy event schema rawData room w in
     (type room = FULL_ACCESS host -> can_checks (trace o) = []) /\
     (forall ability w1,
        generateAbility host (map project_action (permissions room)) w = (Ok ability, w1) ->
        let key := (uid schema ++ "." ++ event)%string in
        (emissions (trace o) <> [] ->
         type room = FULL_ACCESS host \/ can host ability key = true) /\
        (type room = FULL_ACCESS host \/ can host ability key = true ->
         result o = Ok tt ->
         exists target payload,
           emissions (trace o) = [CEmit target (wire_event schema event) payload (Ok tt)]) /\
        (type room <> FULL_ACCESS host -> can host ability key = false ->
         emissions (trace o) = [] /\ pipeline_calls (trace o) = [] /\
         can_checks (trace o) = [CCan ability key false] /\ result o = Ok tt))) /\
  (forall w c,
     In c (trace (emit host event schema rawData w)) ->
     is_emit c = true \/ is_can c = true ->
     exists l1 l2 k strategy room w',
       In (k, strategy) (strategyService host) /\
       trace (emit host event schema rawData w) =
       l1 ++ trace (emit_room host k strategy event schema rawData room w') ++ l2 /\
       In c (trace (emit_room host k strategy event schema rawData room w'))).
Proof.
  split.
  - intros strategyType strategy room w.
    apply (emit_room_gate host strategyType strategy event schema rawData room w).
  - intros w c Hin Hkind.
    destruct (emit_segments host event schema rawData w c Hin)
      as [(k & r & ->)|Hroom]; [|exact Hroom].
    destruct Hkind; discriminate.
Qed.

(** ** The no-payload guard *)

(** C3. A broadcast whose raw payload is [null] or absent ([undefined])
    returns at once: no ability is generated, no capability is checked, the
    pipeline is not called, nothing is emitted and no strategy is asked for
    its rooms; the trace of the run is empty. *)
Theorem null_payload_is_noop {W Ability : Type} (host : Host W Ability)
  (event : string) (schema : Schema) (w : W) :
  let absent := emit host event schema Js.Undefined w in
  let null := emit host event schema Js.Null w in
  (quiet null w /\ quiet absent w) /\
  (ability_generations (trace null) = [] /\ can_checks (trace null) = [] /\
   pipeline_calls (trace null) = [] /\ emissions (trace null) = [] /\
   rooms_fetched (trace null) = 0) /\
  (ability_generations (trace absent) = [] /\ can_checks (trace absent) = [] /\
   pipeline_calls (trace absent) = [] /\ emissions (trace absent) = [] /\
   rooms_fetched (trace absent) = 0).
Proof. cbv zeta. unfold quiet. simpl. repeat split. Qed.

(** C9. The guard is a truthiness test: every falsy raw payload, so also
    [0], [-0], the empty string, [false] and [NaN] besides [null] and
    [undefined], makes the broadcast return at once with no ability
    generation, no pipeline call and no emission, while a truthy payload goes
    on to the strategies. *)
Theorem falsy_payload_is_noop {W Ability : Type} (host : Host W Ability)
  (event : string) (schema : Schema) (w : W) :
  (forall rawData, Js.to_boolean rawData = false ->
     let o := emit host event schema rawData w in
     quiet o w /\ ability_generations (trace o) = [] /\
     pipeline_calls (trace o) = [] /\ emissions (trace o) = []) /\
  Forall (fun rawData => Js.to_boolean rawData = false)
    [Js.Null; Js.Undefined; Js.zero; Js.minus_zero; Js.Str ""; Js.Boolean false;
     Js.NaN] /\
  (forall rawData,
     Js.to_boolean rawData = false <->
     rawData = Js.Undefined \/ rawData = Js.Null \/ rawData = Js.Boolean false \/
     (exists s, rawData = Js.Number (S754_zero s)) \/ rawData = Js.NaN \/
     rawData = Js.BigInt 0 \/ rawData = Js.Str "") /\
  (forall rawData, Js.to_boolean rawData = true ->
     emit host event schema rawData w =
     emit_strategies host event schema rawData (strategyService host) w).
Proof.
  split; [|split; [|split]].
  - intros rawData Hfalsy. cbv zeta.
    rewrite (emit_falsy host event schema rawData w Hfalsy).
    unfold quiet. simpl. repeat split.
  - repeat constructor.
  - apply to_boolean_false_iff.
  - intros rawData Htruthy. now apply emit_truthy.
Qed.

Lemma falsy_payload_is_noop_witness :
  quiet (emit Demo.host "update" Demo.article Js.NaN tt) tt /\
  quiet (emit Demo.host "update" Demo.article Js.zero tt) tt.
Proof.
  split.
  - apply (proj1 (falsy_payload_is_noop Demo.host "update" Demo.article tt) Js.NaN).
    reflexivity.
  - apply (proj1 (falsy_payload_is_noop Demo.host "update" Demo.article tt) Js.zero).
    reflexivity.
Defined.

(** ** The raw surface *)




(** ** Payload shapes *)



(** ** What is emitted, and where *)

(** C6, as the class has it.  Every emission of a broadcast carries the wire
    event name [schema.singularName + ":" + event].  Its payload is
    [{ ...transform(sanitize(rawData)) }]: sanitize is called on the raw data
    with the room's auth context, then transform on what sanitize returned,
    and the emitted object holds the own properties of what transform
    returned; it is that value itself whenever the value is a plain
    object. *)
Theorem emitted_event_and_payload {W Ability : Type} (host : Host W Ability)
  (event : string) (schema : Schema) (rawData : Js.Value) (w : W)
  (target : Emitter) (eventName : string) (payload : Js.Value) (r : Result unit) :
  In (CEmit target eventName payload r) (trace (emit host event schema rawData w)) ->
  eventName = (singularName schema ++ ":" ++ event)%string /\
  exists l1 l2 args sanitized k room roomName transformed,
    trace (emit host event schema rawData w) =
    l1 ++
    [CSanitize args (Ok sanitized);
     CGetRoomName k room (Ok roomName);
     CTransform sanitized schema (Ok transformed);
     CEmit target eventName payload r] ++ l2 /\
    sanitize_data args = rawData /\
    sanitize_schema args = schema /\
    In (CGenerateAbility (map project_action (permissions room))
          (Ok (auth_ability (sanitize_auth args)))) l1 /\
    payload = Js.spread transformed /\
    (Js.is_object transformed = true -> payload = transformed).
Proof.
  intros Hin.
  destruct (emit_emission host event schema rawData w _ _ _ _ Hin)
    as (l1 & l2 & k & strategy & room & ability & creds & sanitized & roomName
        & transformed & _ & Heq & Hgen & _ & Hname & Hpayload).
  split; [exact Hname|].
  exists l1, l2,
    {| sanitize_data := rawData;
       sanitize_schema := schema;
       sanitize_auth :=
         {| auth_name := name strategy;
            auth_ability := ability;
            auth_strategy_verify := verify strategy;
            auth_credentials := creds |} |},
    sanitized, k, room, roomName, transformed.
  repeat split; auto.
  intros Hobject. rewrite Hpayload. now apply spread_object.
Qed.

Lemma emitted_event_and_payload_witness :
  "article:update" = (singularName Demo.article ++ ":" ++ "update")%string /\
  exists l1 l2 args sanitized k room roomName transformed,
    trace (emit Demo.host "update" Demo.article Demo.entity tt) =
    l1 ++
    [CSanitize args (Ok sanitized);
     CGetRoomName k room (Ok roomName);
     CTransform sanitized Demo.article (Ok transformed);
     CEmit ["Full-Access"] "article:update" (Demo.wrap_response Demo.entity) (Ok tt)]
    ++ l2 /\
    sanitize_data args = Demo.entity /\
    sanitize_schema args = Demo.article /\
    In (CGenerateAbility (map project_action (permissions room))
          (Ok (auth_ability (sanitize_auth args)))) l1 /\
    Demo.wrap_response Demo.entity = Js.spread transformed /\
    (Js.is_object transformed = true -> Demo.wrap_response Demo.entity = transformed).
Proof.
  apply (emitted_event_and_payload Demo.host "update" Demo.article Demo.entity tt).
  vm_compute. auto 10.
Defined.

(** C6, as stated, fails: with a transform service that answers [null] the
    room receives the empty object [{}], not the value transform returned. *)
Lemma emitted_payload_is_a_copy :
  let o := emit Demo.host_with_null_transform "update" Demo.article Demo.entity tt in
  In (CSanitize
        {| sanitize_data := Demo.entity;
           sanitize_schema := Demo.article;
           sanitize_auth :=
             {| auth_name := Js.Str "io-tokens";
                auth_ability := [];
                auth_strategy_verify := Js.Function 1;
                auth_credentials := Js.Object [("name", Js.Str "Full Access")] |} |}
        (Ok Demo.entity)) (trace o) /\
  In (CTransform Demo.entity Demo.article (Ok Js.Null)) (trace o) /\
  emissions (trace o) = [CEmit ["Full-Access"] "article:update" (Js.Object []) (Ok tt)] /\
  Js.Object [] <> Js.Null /\
  ~ emits_transformed_as_is Demo.host_with_null_transform
      "update" Demo.article Demo.entity tt.
Proof.
  cbv zeta. split; [|split; [|split; [|split]]].
  - vm_compute. auto 10.
  - vm_compute. auto 10.
  - reflexivity.
  - discriminate.
  - intros Hclaim.
    destruct (Hclaim ["Full-Access"] "article:update" (Js.Object []) (Ok tt))
      as (data & Hin).
    + vm_compute. auto 10.
    + vm_compute in Hin.
      repeat (destruct Hin as [Hin|Hin]; [discriminate|]). contradiction.
Qed.

(** C7. The room name a strategy derives goes through
    [roomName.replace(' ', '-')] before it selects the room of an emission.
    The replacement touches the first space only: a name without a space is
    unchanged, and in a name with spaces everything after the first one,
    further spaces included, stays as it was. *)
Theorem room_name_first_space_replaced {W Ability : Type} (host : Host W Ability) :
  (forall s, ~ In " "%char (Js.chars s) -> Js.replace " " "-" s = s) /\
  (forall pre post, ~ In " "%char (Js.chars pre) ->
     Js.replace " " "-" (pre ++ String " " post)%string
     = (pre ++ String "-" post)%string) /\
  (forall s, ~ In " "%char (Js.chars s) \/
     exists pre post,
       s = (pre ++ String " " post)%string /\ ~ In " "%char (Js.chars pre)) /\
  (forall event schema rawData w target eventName payload r,
     In (CEmit target eventName payload r) (trace (emit host event schema rawData w)) ->
     exists l1 l2 k room roomName between,
       trace (emit host event schema rawData w) =
       l1 ++ [CGetRoomName k room (Ok roomName); between;
              CEmit target eventName payload r] ++ l2 /\
       target = [Js.replace " " "-" roomName]).
Proof.
  split; [|split; [|split]].
  - intros s. apply replace_without.
  - intros pre post. apply replace_first.
  - intros s. apply first_occurrence.
  - intros event schema rawData w target eventName payload r Hin.
    destruct (emit_emission host event schema rawData w _ _ _ _ Hin)
      as (l1 & l2 & k & strategy & room & ability & creds & sanitized & roomName
          & transformed & _ & Heq & _ & Htarget & _ & _).
    eexists (l1 ++ [_]), l2, k, room, roomName, _.
    split; [|exact Htarget].
    rewrite Heq, <- app_assoc. reflexivity.
Qed.

Lemma room_name_first_space_replaced_witness :
  Js.replace " " "-" "Read Only Token" = "Read-Only Token" /\
  Js.replace " " "-" "public" = "public" /\
  exists l1 l2 k room roomName between,
    trace (emit Demo.host "update" Demo.article Demo.entity tt) =
    l1 ++ [CGetRoomName k room (Ok roomName); between;
           CEmit ["Full-Access"] "article:update"
             (Demo.wrap_response Demo.entity) (Ok tt)] ++ l2 /\
    ["Full-Access"] = [Js.replace " " "-" roomName].
Proof.
  destruct (room_name_first_space_replaced Demo.host) as (Hnone & Hfirst & _ & Hemit).
  split; [|split].
  - apply (Hfirst "Read" "Only Token"). vm_compute. intuition discriminate.
  - apply (Hnone "public"). vm_compute. intuition discriminate.
  - apply (Hemit "update" Demo.article Demo.entity tt). vm_compute. auto 10.
Defined.

(** ** Abilities *)

(** C5. Processing a room opens with one call to the permission engine, on
    the room's permissions projected to their [action] alone; that call is
    the room's only one, and the ability it returns is the one handed to the
    room's capability check and put into the auth context of the room's
    sanitize call.  Over a whole broadcast there is one generation per room
    processed, never fewer: no ability is kept from one room, or from one
    broadcast, to the next. *)
Theorem ability_generated_per_room {W Ability : Type} (host : Host W Ability)
  (event : string) (schema : Schema) (rawData : Js.Value) :
  (forall strategyType strategy room w,
     let perms := map project_action (permissions room) in
     let generated := fst (generateAbility host perms w) in
     let o := emit_room host strategyType strategy event schema rawData room w in
     Forall (fun p => exists action, p = Js.Object [("action", action)]) perms /\
     ability_generations (trace o) = [CGenerateAbility perms generated] /\
     (exists rest, trace o = CGenerateAbility perms generated :: rest) /\
     (forall ability key r, In (CCan ability key r) (trace o) ->
        generated = Ok ability) /\
     (forall args r, In (CSanitize args r) (trace o) ->
        generated = Ok (auth_ability (sanitize_auth args)))) /\
  (forall w,
     let o := emit host event schema rawData w in
     List.length (ability_generations (trace o)) <= rooms_fetched (trace o) /\
     (result o = Ok tt ->
      List.length (ability_generations (trace o)) = rooms_fetched (trace o))).
Proof.
  split.
  - intros strategyType strategy room w. cbv zeta.
    split; [apply project_action_only|].
    split; [apply emit_room_generations|].
    split; [apply emit_room_trace_head|].
    apply (emit_room_ability_used host strategyType strategy event schema rawData room w).
  - intros w. cbv zeta. unfold emit.
    destruct (Js.to_boolean rawData); simpl.
    + apply emit_strategies_generations.
    + auto.
Qed.

Lemma ability_generated_per_room_witness :
  fst (generateAbility Demo.host
         (map project_action (permissions Demo.scoped_room)) tt) =
  Ok ["api::article.article.find"] /\
  List.length
    (ability_generations (trace (emit Demo.host "update" Demo.article Demo.entity tt))) = 2.
Proof.
  destruct (ability_generated_per_room Demo.host "update" Demo.article Demo.entity)
    as [Hroom Hall].
  split.
  - destruct (Hroom "token" Demo.tokens Demo.scoped_room tt) as (_ & _ & _ & Hcan & _).
    apply (Hcan ["api::article.article.find"] "api::article.article.update" false).
    vm_compute. auto.
  - rewrite (proj2 (Hall tt)); reflexivity.
Defined.

(** C1 on the two rooms of the sample host: the full-access room is emitted
    to without a capability check, the scoped room is checked, denied and
    left out. *)
Lemma emit_room_admission_witness :
  can_checks
    (trace (emit_room Demo.host "token" Demo.tokens "update" Demo.article
              Demo.entity Demo.full_room tt)) = [] /\
  (exists target payload,
     emissions
       (trace (emit_room Demo.host "token" Demo.tokens "update" Demo.article
                 Demo.entity Demo.full_room tt)) =
     [CEmit target "article:update" payload (Ok tt)]) /\
  emissions
    (trace (emit_room Demo.host "token" Demo.tokens "update" Demo.article
              Demo.entity Demo.scoped_room tt)) = [].
Proof.
  destruct (emit_room_admission Demo.host "update" Demo.article Demo.entity)
    as [Hroom _].
  destruct (Hroom "token" Demo.tokens Demo.full_room tt) as [Hshort Hfull].
  destruct (Hroom "token" Demo.tokens Demo.scoped_room tt) as [_ Hscoped].
  split; [|split].
  - apply Hshort. reflexivity.
  - destruct (Hfull [] tt eq_refl) as (_ & Hemit & _).
    apply Hemit; [left|]; reflexivity.
  - destruct (Hscoped ["api::article.article.find"] tt eq_refl) as (_ & _ & Hdeny).
    apply Hdeny; [discriminate | reflexivity].
Defined.

(** ** Failures *)




(** ** Adapter selection *)

Lemma fallback_calls (rt : Adapter.Runtime) :
  Adapter._fallbackToLocalAdapter rt =
  (Adapter.socket_adapter rt (Adapter.Redis None None),
   [Adapter.Log Adapter.Warn "Socket.IO: Falling back to local adapter";
    Adapter.SetAdapter (Adapter.Redis None None)
      (Adapter.socket_adapter rt (Adapter.Redis None None))]).
Proof. reflexivity. Qed.

(** Whatever happens, the production selector hands socket.io nothing but
    Redis adapters. *)
Lemma redis_selector_installs_redis_only (rt : Adapter.Runtime)
  (factory : Adapter.Factory) (r : Result unit) :
  In (Adapter.SetAdapter factory r) (Adapter.calls (Adapter._setupRedisAdapter rt)) ->
  exists pubClient subClient, factory = Adapter.Redis pubClient subClient.
Proof.
  unfold Adapter._setupRedisAdapter, Adapter.redis_try_block, Adapter.redis_on_missing,
    Adapter.redis_on_connected, Adapter.redis_on_failed, Adapter._fallbackToLocalAdapter,
    Adapter.promise_then, Adapter.promise_catch, Adapter.promise_all,
    Adapter.set_adapter, Adapter.bind, Adapter.call, Adapter.log, Adapter.ret.
  simpl.
  repeat match goal with
         | |- context [match ?x with _ => _ end] => destruct x eqn:?; simpl
         end.
  all: intros Hin;
    repeat (destruct Hin as [Hin|Hin]; [try discriminate|]); try contradiction.
  all: inversion Hin; subst; eauto.
Qed.

(** When a connection is refused, the [.catch] handler runs the same
    fallback. *)
Lemma refused_connection_fallback :
  Adapter.setup_adapter Demo.runtime_with_refused_connection =
  {| Adapter.returned := Ok tt;
     Adapter.chain := Some Adapter.Fulfilled;
     Adapter.calls :=
       [Adapter.Require "redis" (Ok tt);
        Adapter.CreateClient "redis://broker:6379" (Ok 1);
        Adapter.Duplicate 1 (Ok 2);
        Adapter.OnError 1;
        Adapter.OnError 2;
        Adapter.Connect 1 (Ok (Adapter.Rejected (Js.Str "ECONNREFUSED")));
        Adapter.Connect 2 (Ok (Adapter.Rejected (Js.Str "ECONNREFUSED")));
        Adapter.Log Adapter.Error "Socket.IO: Redis connection failed";
        Adapter.Log Adapter.Warn "Socket.IO: Falling back to local adapter";
        Adapter.SetAdapter (Adapter.Redis None None) (Ok tt)] |}.
Proof. reflexivity. Qed.

(** The development selector keeps every failure inside and leaves the
    in-memory adapter in place when it fails. *)
Lemma development_selector_contained (rt : Adapter.Runtime) :
  let run := Adapter._setupDevelopmentAdapter rt in
  Adapter.contained run = true /\
  (Adapter.require_cluster_adapter rt = Ok tt ->
   Adapter.socket_adapter rt Adapter.Cluster = Ok tt ->
   Adapter.adapter_in_place Adapter.InMemory (Adapter.calls run) = Adapter.Cluster) /\
  ((exists e, Adapter.require_cluster_adapter rt = Throw e) \/
   (exists e, Adapter.socket_adapter rt Adapter.Cluster = Throw e) ->
   Adapter.adapter_in_place Adapter.InMemory (Adapter.calls run) = Adapter.InMemory).
Proof.
  cbv zeta.
  unfold Adapter._setupDevelopmentAdapter, Adapter.try_catch, Adapter.contained,
    Adapter.set_adapter, Adapter.cluster_createAdapter,
    Adapter.bind, Adapter.call, Adapter.log.
  simpl.
  destruct (Adapter.require_cluster_adapter rt) as [[]|e1]; simpl.
  - destruct (Adapter.socket_adapter rt Adapter.Cluster) as [[]|e2]; simpl.
    + repeat split; auto. intros [[e H]|[e H]]; discriminate.
    + repeat split; auto. discriminate.
  - repeat split; auto. discriminate.
Qed.

(** C4 at its failing input: production, with the [redis] package missing.
    The [catch] block runs [_fallbackToLocalAdapter], and what that method
    hands to socket.io is [createAdapter()] of [@socket.io/redis-adapter], a
    Redis adapter without clients, not the local adapter.  The call sits
    outside any [try]: the selector returns what the call returns.  So either
    the call throws and the exception leaves the selector, or it returns and
    the adapter in place is the client-less Redis one; in no case has the
    selector both kept the failure inside and ended on the local adapter. *)
Theorem missing_redis_fallback (rt : Adapter.Runtime) (e : Js.Value) :
  Adapter.production rt = true ->
  Adapter.require_redis rt = Throw e ->
  let installed := Adapter.socket_adapter rt (Adapter.Redis None None) in
  let run := Adapter.setup_adapter rt in
  Adapter.calls run =
  [Adapter.Require "redis" (Throw e);
   Adapter.Log Adapter.Error "Socket.IO: Redis dependencies missing";
   Adapter.Log Adapter.Warn "Socket.IO: Falling back to local adapter";
   Adapter.SetAdapter (Adapter.Redis None None) installed] /\
  Adapter.returned run = installed /\
  (forall e', installed = Throw e' ->
     Adapter.returned run = Throw e' /\ Adapter.contained run = false) /\
  (installed = Ok tt ->
   Adapter.adapter_in_place Adapter.InMemory (Adapter.calls run)
   = Adapter.Redis None None) /\
  ~ (Adapter.contained run = true /\
     Adapter.adapter_in_place Adapter.InMemory (Adapter.calls run) = Adapter.InMemory).
Proof.
  intros Hprod Hmissing. cbv zeta.
  unfold Adapter.setup_adapter. rewrite Hprod.
  unfold Adapter._setupRedisAdapter, Adapter.redis_try_block, Adapter.redis_on_missing,
    Adapter._fallbackToLocalAdapter, Adapter.set_adapter, Adapter.contained,
    Adapter.createAdapter, Adapter.bind, Adapter.call, Adapter.log.
  simpl. rewrite Hmissing. simpl.
  destruct (Adapter.socket_adapter rt (Adapter.Redis None None)) as [[]|e'] eqn:Hset;
    simpl.
  - split; [reflexivity|]. split; [reflexivity|].
    split; [discriminate|]. split; [reflexivity|].
    intros [_ H]. discriminate.
  - split; [reflexivity|]. split; [reflexivity|].
    split; [|split; [discriminate|]].
    + intros e0 H. inversion H; subst. split; reflexivity.
    + intros [H _]. discriminate.
Qed.

Lemma missing_redis_fallback_witness :
  Adapter.returned (Adapter.setup_adapter (Demo.runtime_without_redis Demo.needs_clients))
  = Throw (Js.Str "TypeError: Cannot read properties of undefined") /\
  Adapter.adapter_in_place Adapter.InMemory
    (Adapter.calls (Adapter.setup_adapter (Demo.runtime_without_redis (fun _ => Ok tt))))
  = Adapter.Redis None None.
Proof.
  split.
  - destruct (missing_redis_fallback (Demo.runtime_without_redis Demo.needs_clients)
                (Js.Str "Cannot find module 'redis'") eq_refl eq_refl)
      as (_ & _ & Hthrow & _).
    apply (Hthrow (Js.Str "TypeError: Cannot read properties of undefined")).
    reflexivity.
  - destruct (missing_redis_fallback (Demo.runtime_without_redis (fun _ => Ok tt))
                (Js.Str "Cannot find module 'redis'") eq_refl eq_refl)
      as (_ & _ & _ & Hplace & _).
    apply Hplace. reflexivity.
Defined.

(** ** The production selector, path by path *)

Ltac unfold_selector :=
  unfold Adapter.setup_adapter, Adapter._setupRedisAdapter, Adapter.redis_try_block,
    Adapter.redis_on_missing, Adapter.redis_on_connected, Adapter.redis_on_failed,
    Adapter._fallbackToLocalAdapter, Adapter.promise_then, Adapter.promise_catch,
    Adapter.set_adapter, Adapter.createAdapter, Adapter.bind, Adapter.call,
    Adapter.log, Adapter.ret, redis_sync_calls, fallback_trace, redis_url in *.












(** ** The development selector and the choice between the two *)

(** X6. The development selector keeps every failure to itself and never
    runs the fallback: it always returns normally and leaves no promise
    behind; when the cluster adapter loads and installs, that adapter is in
    place; when the package is missing or the installation throws, the only
    trace of it is the warning "Running without cluster adapter" and the
    server stays on the in-memory adapter. *)
Theorem development_selector_never_falls_back (rt : Adapter.Runtime) :
  let run := Adapter._setupDevelopmentAdapter rt in
  Adapter.returned run = Ok tt /\
  Adapter.chain run = None /\
  ~ In (Adapter.Log Adapter.Warn "Socket.IO: Falling back to local adapter")
      (Adapter.calls run) /\
  (Adapter.require_cluster_adapter rt = Ok tt ->
   Adapter.socket_adapter rt Adapter.Cluster = Ok tt ->
   Adapter.adapter_in_place Adapter.InMemory (Adapter.calls run) = Adapter.Cluster /\
   In (Adapter.Log Adapter.Info "Socket.IO: Using development cluster adapter")
     (Adapter.calls run)) /\
  ((exists e, Adapter.require_cluster_adapter rt = Throw e) \/
   (exists e, Adapter.socket_adapter rt Adapter.Cluster = Throw e) ->
   Adapter.adapter_in_place Adapter.InMemory (Adapter.calls run) = Adapter.InMemory /\
   In (Adapter.Log Adapter.Warn "Socket.IO: Running without cluster adapter")
     (Adapter.calls run) /\
   ~ In (Adapter.Log Adapter.Info "Socket.IO: Using development cluster adapter")
       (Adapter.calls run)).
Proof.
  cbv zeta.
  unfold Adapter._setupDevelopmentAdapter, Adapter.try_catch, Adapter.set_adapter,
    Adapter.cluster_createAdapter, Adapter.bind, Adapter.call, Adapter.log.
  simpl.
  destruct (Adapter.require_cluster_adapter rt) as [[]|e1]; simpl;
    [destruct (Adapter.socket_adapter rt Adapter.Cluster) as [[]|e2]; simpl|].
  all: split; [reflexivity|]; split; [reflexivity|]; split;
    [intros Hin; repeat (destruct Hin as [Hin|Hin]; [discriminate|]); contradiction|].
  all: split.
  all: try (intros; discriminate).
  - intros _ _. auto 10.
  - intros [[e H]|[e H]]; discriminate.
  - intros _. split; [reflexivity|]. split; [auto 10|].
    intros Hin; repeat (destruct Hin as [Hin|Hin]; [discriminate|]); contradiction.
  - intros _. split; [reflexivity|]. split; [auto 10|].
    intros Hin; repeat (destruct Hin as [Hin|Hin]; [discriminate|]); contradiction.
Qed.

Lemma development_selector_never_falls_back_witness :
  Adapter.adapter_in_place Adapter.InMemory
    (Adapter.calls (Adapter._setupDevelopmentAdapter Demo.runtime_without_cluster))
  = Adapter.InMemory /\
  Adapter.adapter_in_place Adapter.InMemory
    (Adapter.calls (Adapter._setupDevelopmentAdapter runtime_connected))
  = Adapter.Cluster.
Proof.
  split.
  - destruct (development_selector_never_falls_back Demo.runtime_without_cluster)
      as (_ & _ & _ & _ & Hfail).
    apply Hfail. left. eexists. reflexivity.
  - destruct (development_selector_never_falls_back runtime_connected)
      as (_ & _ & _ & Hok & _).
    apply Hok; reflexivity.
Defined.

Lemma development_selector_calls (rt : Adapter.Runtime) (c : Adapter.Call) :
  In c (Adapter.calls (Adapter._setupDevelopmentAdapter rt)) ->
  (exists r, c = Adapter.Require "@socket.io/cluster-adapter" r) \/
  (exists r, c = Adapter.SetAdapter Adapter.Cluster r) \/
  (exists level message, c = Adapter.Log level message).
Proof.
  unfold Adapter._setupDevelopmentAdapter, Adapter.try_catch, Adapter.set_adapter,
    Adapter.cluster_createAdapter, Adapter.bind, Adapter.call, Adapter.log.
  simpl.
  destruct (Adapter.require_cluster_adapter rt) as [[]|e1]; simpl;
    [destruct (Adapter.socket_adapter rt Adapter.Cluster) as [[]|e2]; simpl|].
  all: intros Hin; repeat (destruct Hin as [Hin|Hin]; [subst; eauto 10|]);
    contradiction.
Qed.

Lemma redis_selector_requires_redis_only (rt : Adapter.Runtime)
  (module : string) (r : Result unit) :
  In (Adapter.Require module r) (Adapter.calls (Adapter._setupRedisAdapter rt)) ->
  module = "redis".
Proof.
  unfold_selector. unfold Adapter.promise_all. simpl.
  repeat match goal with
         | |- context [match ?x with _ => _ end] => destruct x eqn:?; simpl
         end.
  all: intros Hin;
    repeat (destruct Hin as [Hin|Hin]; [try discriminate|]); try contradiction.
  all: inversion Hin; subst; reflexivity.
Qed.

(** X7. The two adapter paths never mix.  In production the selection loads
    no package but [redis] and hands socket.io nothing but adapters of
    [@socket.io/redis-adapter], also when it falls back; outside production
    it loads nothing but [@socket.io/cluster-adapter], installs nothing but
    the cluster adapter, and creates no client. *)
Theorem adapter_paths_do_not_mix (rt : Adapter.Runtime) (c : Adapter.Call) :
  In c (Adapter.calls (Adapter.setup_adapter rt)) ->
  (Adapter.production rt = true ->
   (forall module r, c = Adapter.Require module r -> module = "redis") /\
   (forall factory r, c = Adapter.SetAdapter factory r ->
      exists pubClient subClient, factory = Adapter.Redis pubClient subClient)) /\
  (Adapter.production rt = false ->
   (forall module r, c = Adapter.Require module r ->
      module = "@socket.io/cluster-adapter") /\
   (forall factory r, c = Adapter.SetAdapter factory r -> factory = Adapter.Cluster) /\
   (forall url r, c <> Adapter.CreateClient url r) /\
   (forall client r, c <> Adapter.Connect client r)).
Proof.
  unfold Adapter.setup_adapter. intros Hin. split; intros Hmode; rewrite Hmode in Hin.
  - split.
    + intros module r ->. now apply (redis_selector_requires_redis_only rt module r).
    + intros factory r ->. now apply (redis_selector_installs_redis_only rt factory r).
  - destruct (development_selector_calls rt c Hin)
      as [(r0 & ->)|[(r0 & ->)|(level & message & ->)]].
    all: repeat split; intros; try discriminate.
    all: match goal with H : _ = _ |- _ => inversion H; subst; reflexivity end.
Qed.

Lemma adapter_paths_do_not_mix_witness :
  exists pubClient subClient,
    Adapter.Redis None None = Adapter.Redis pubClient subClient.
Proof.
  destruct (adapter_paths_do_not_mix Demo.runtime_with_refused_connection
              (Adapter.SetAdapter (Adapter.Redis None None) (Ok tt)))
    as [Hprod _].
  - vm_compute. auto 20.
  - destruct (Hprod eq_refl) as [_ Hset].
    apply (Hset (Adapter.Redis None None) (Ok tt)). reflexivity.
Defined.

(** ** The constructor *)






(** X9. The constructor creates the server first, with the final options,
    then runs the init hook, then selects the adapter.  When creating the
    server, reading the hooks or the init hook throws, the constructor throws
    the same value and no adapter is selected.  When they return (a missing
    init hook is skipped without a call), the adapter selection runs and the
    constructor ends as the selection ends. *)
Theorem constructor_order (strapi : Construct.Strapi) (options : Js.Value) :
  let final :=
    Construct.finalOptions (Adapter.production (Construct.runtime strapi)) options in
  let selection := Adapter.setup_adapter (Construct.runtime strapi) in
  let run := Construct.constructor strapi options in
  (exists rest,
     Construct.calls run =
     Construct.NewServer final (Construct.new_server strapi final) :: rest) /\
  (forall e, Construct.new_server strapi final = Throw e ->
     Construct.returned run = Throw e /\
     Construct.calls run = [Construct.NewServer final (Throw e)]) /\
  (forall e, Construct.new_server strapi final = Ok tt ->
     Construct.init_hook strapi = Throw e \/
     Construct.init_hook strapi = Ok (Some (Throw e)) ->
     Construct.returned run = Throw e /\
     filter Construct.is_select (Construct.calls run) = []) /\
  (Construct.new_server strapi final = Ok tt ->
   Construct.init_hook strapi = Ok None \/
   Construct.init_hook strapi = Ok (Some (Ok tt)) ->
   Construct.returned run = Adapter.returned selection /\
   Construct.chain run = Adapter.chain selection /\
   filter Construct.is_select (Construct.calls run)
   = map Construct.Select (Adapter.calls selection) /\
   (Construct.init_hook strapi = Ok None ->
    forall r, ~ In (Construct.HookInit r) (Construct.calls run))).
Proof.
  assert (Hselect : forall cs,
            filter Construct.is_select (map Construct.Select cs)
            = map Construct.Select cs).
  { induction cs as [|c cs IH]; simpl; [reflexivity | now rewrite IH]. }
  cbv zeta. unfold Construct.constructor, Construct.run_init.
  split; [|split; [|split]].
  - destruct (Construct.new_server strapi _) as [[]|e]; [|simpl; eauto].
    destruct (Construct.init_hook strapi) as [[[[]|e]|]|e]; simpl; eauto.
  - intros e ->. auto.
  - intros e -> [->| ->]; simpl; auto.
  - intros -> [->| ->]; simpl.
    + rewrite Hselect. repeat split.
      intros _ r [Hin|[Hin|Hin]]; try discriminate.
      apply in_map_iff in Hin. destruct Hin as (c & Hc & _). discriminate.
    + rewrite Hselect. repeat split. discriminate.
Qed.

Lemma constructor_order_witness :
  Construct.returned (Construct.constructor strapi_with_failing_hook Js.Undefined)
  = Throw (Js.Str "init failed") /\
  Construct.returned (Construct.constructor strapi_development Js.Undefined) = Ok tt.
Proof.
  split.
  - destruct (constructor_order strapi_with_failing_hook Js.Undefined)
      as (_ & _ & Hhook & _).
    apply (Hhook (Js.Str "init failed")); [reflexivity | right; reflexivity].
  - destruct (constructor_order strapi_development Js.Undefined)
      as (_ & _ & _ & Hrun).
    destruct Hrun as (Hreturned & _); [reflexivity | left; reflexivity |].
    rewrite Hreturned. reflexivity.
Defined.

(** ** More on the broadcast *)

Section BroadcastFacts.

Context {W : Type} {Ability : Type}.
Variable host : Host W Ability.
Variables (event : string) (schema : Schema) (rawData : Js.Value).

Lemma asked_app (l1 l2 : list (Call Ability)) :
  asked (l1 ++ l2) = asked l1 ++ asked l2.
Proof.
  induction l1 as [|c l1 IH]; simpl; [reflexivity|].
  destruct c; simpl; now rewrite IH.
Qed.

Lemma emit_room_asked (k : string) (strategy : Strategy W) (room : Room) (w : W) :
  asked (trace (emit_room host k strategy event schema rawData room w)) = [].
Proof. run_room; reflexivity. Qed.

Lemma emit_rooms_asked (k : string) (strategy : Strategy W) (rooms : list Room) (w : W) :
  asked (trace (emit_rooms host k strategy event schema rawData rooms w)) = [].
Proof.
  revert w. induction rooms as [|r rooms IH]; intros w; simpl; [reflexivity|].
  unfold bind, prepend_trace.
  pose proof (emit_room_asked k strategy r w) as Hroom.
  destruct (result (emit_room host k strategy event schema rawData r w)); simpl.
  - now rewrite asked_app, Hroom, IH.
  - exact Hroom.
Qed.

Lemma emit_strategies_asked (entries : list (string * Strategy W)) (w : W) :
  let o := emit_strategies host event schema rawData entries w in
  (exists rest, map fst entries = asked (trace o) ++ rest) /\
  (result o = Ok tt -> asked (trace o) = map fst entries).
Proof.
  cbv zeta. revert w. induction entries as [|[k strategy] entries IH]; intros w; simpl.
  - split; [exists []; reflexivity | reflexivity].
  - unfold bind, prepend_trace.
    destruct (fst (getRooms strategy w)) as [rooms|e] eqn:Hget.
    + rewrite (emit_strategy_getRooms_ok host event schema rawData (k, strategy) w rooms Hget).
      simpl.
      pose proof (emit_rooms_asked k strategy rooms (snd (getRooms strategy w))) as Hrooms.
      destruct (result (emit_rooms host k strategy event schema rawData rooms
                          (snd (getRooms strategy w)))) as [[]|e]; simpl.
      * rewrite asked_app, Hrooms. simpl.
        destruct (IH (world (emit_rooms host k strategy event schema rawData rooms
                               (snd (getRooms strategy w))))) as [[rest Hrest] Hall].
        split.
        -- exists rest. now rewrite Hrest.
        -- intros Hok. now rewrite (Hall Hok).
      * rewrite Hrooms. split; [exists (map fst entries); reflexivity | discriminate].
    + rewrite (emit_strategy_getRooms_throws host event schema rawData (k, strategy) w e Hget).
      simpl. split; [exists (map fst entries); reflexivity | discriminate].
Qed.






End BroadcastFacts.

(** X10. A broadcast asks the registered strategies for their rooms in the
    order of the strategy service's own properties, each at most once: the
    strategies asked are always a leading part of the registered ones, and
    all of them, once each, when the broadcast returns. *)
Theorem strategies_asked_in_order {W Ability : Type} (host : Host W Ability)
  (event : string) (schema : Schema) (rawData : Js.Value) (w : W) :
  Js.to_boolean rawData = true ->
  let o := emit host event schema rawData w in
  (exists rest, map fst (strategyService host) = asked (trace o) ++ rest) /\
  (result o = Ok tt -> asked (trace o) = map fst (strategyService host)).
Proof.
  intros Htruthy. cbv zeta.
  rewrite (emit_truthy host event schema rawData w Htruthy).
  apply emit_strategies_asked.
Qed.

Lemma strategies_asked_in_order_witness :
  asked (trace (emit Demo.host "update" Demo.article Demo.entity tt)) = ["token"] /\
  exists rest,
    ["role"; "token"] =
    asked (trace (emit Demo.host_with_failing_strategy "update"
                    Demo.article Demo.entity tt)) ++ rest.
Proof.
  split.
  - apply (strategies_asked_in_order Demo.host "update" Demo.article Demo.entity tt);
      reflexivity.
  - apply (strategies_asked_in_order Demo.host_with_failing_strategy "update"
             Demo.article Demo.entity tt). reflexivity.
Defined.



(** X12. [emit] addresses one room per emission: every emission of a
    broadcast goes through exactly one [.to(...)] selector, never through the
    bare server (all clients) and never through a chain of rooms. *)
Theorem emit_targets_one_room {W Ability : Type} (host : Host W Ability)
  (event : string) (schema : Schema) (rawData : Js.Value) (w : W)
  (target : Emitter) (eventName : string) (payload : Js.Value) (r : Result unit) :
  In (CEmit target eventName payload r) (trace (emit host event schema rawData w)) ->
  target <> _socket /\ exists room, target = [room].
Proof.
  intros Hin.
  destruct (emit_emission host event schema rawData w _ _ _ _ Hin)
    as (l1 & l2 & k & strategy & room & ability & creds & sanitized & roomName
        & transformed & _ & _ & _ & Htarget & _ & _).
  rewrite Htarget. unfold to, _socket. simpl. split; [discriminate | eauto].
Qed.

Lemma emit_targets_one_room_witness :
  ["Full-Access"] <> _socket /\ exists room, ["Full-Access"] = [room].
Proof.
  apply (emit_targets_one_room Demo.host "update" Demo.article Demo.entity tt
           ["Full-Access"] "article:update" (Demo.wrap_response Demo.entity) (Ok tt)).
  vm_compute. auto 10.
Defined.

Section AuthFacts.

Context {W : Type} {Ability : Type}.
Variable host : Host W Ability.
Variables (strategyType : string) (strategy : Strategy W).
Variables (event : string) (schema : Schema) (rawData : Js.Value).


End AuthFacts.



(** X14. A room that is not let through costs the strategy nothing: when the
    permission engine throws, the room's processing ends with that failure
    after the single engine call; when the ability denies the key of a room
    that is not [FULL_ACCESS], it ends normally after the engine call and the
    check.  In both cases [credentials] and [getRoomName] are not called,
    nothing is sanitized, transformed or emitted, and the world is as the
    engine left it. *)
Theorem closed_room_runs {W Ability : Type} (host : Host W Ability)
  (strategyType : string) (strategy : Strategy W)
  (event : string) (schema : Schema) (rawData : Js.Value) (room : Room) (w : W) :
  let perms := map project_action (permissions room) in
  let key := (uid schema ++ "." ++ event)%string in
  (forall e w1, generateAbility host perms w = (Throw e, w1) ->
     emit_room host strategyType strategy event schema rawData room w =
     {| result := Throw e; world := w1;
        trace := [CGenerateAbility perms (Throw e)] |}) /\
  (forall ability w1, generateAbility host perms w = (Ok ability, w1) ->
     type room <> FULL_ACCESS host ->
     can host ability key = false ->
     emit_room host strategyType strategy event schema rawData room w =
     {| result := Ok tt; world := w1;
        trace := [CGenerateAbility perms (Ok ability); CCan ability key false] |}).
Proof.
  cbv zeta. split.
  - intros e w1 Hgen. unfold_room. rewrite Hgen. reflexivity.
  - intros ability w1 Hgen Hscoped Hdeny.
    change (can host ability (capability_key schema event) = false) in Hdeny.
    change (uid schema ++ "." ++ event)%string with (capability_key schema event).
    unfold_room. rewrite Hgen. simpl.
    destruct (String.eqb_spec (type room) (FULL_ACCESS host)); [contradiction|].
    unfold prepend_trace. simpl. rewrite Hdeny. reflexivity.
Qed.

Lemma closed_room_runs_witness :
  emit_room Demo.host "token" Demo.tokens "update" Demo.article Demo.entity
    Demo.scoped_room tt =
  {| result := Ok tt; world := tt;
     trace :=
       [CGenerateAbility [Js.Object [("action", Js.Str "api::article.article.find")]]
          (Ok ["api::article.article.find"]);
        CCan ["api::article.article.find"] "api::article.article.update" false] |}.
Proof.
  destruct (closed_room_runs Demo.host "token" Demo.tokens "update" Demo.article
              Demo.entity Demo.scoped_room tt) as [_ Hdeny].
  apply (Hdeny ["api::article.article.find"] tt); [reflexivity | discriminate | reflexivity].
Defined.

(** ** Room names after sanitization *)

Lemma length_replace (search replacement : ascii) (s : string) :
  String.length (Js.replace search replacement s) = String.length s.
Proof.
  induction s as [|c s IH]; simpl; [reflexivity|].
  destruct (Ascii.eqb c search); simpl; [reflexivity | now rewrite IH].
Qed.

Lemma occurrences_replace (search replacement : ascii) (s : string) :
  search <> replacement ->
  occurrences search (Js.replace search replacement s) = pred (occurrences search s).
Proof.
  intros Hneq. induction s as [|c s IH]; simpl; [reflexivity|].
  destruct (Ascii.eqb_spec c search) as [->|Hc]; simpl.
  - destruct (Ascii.eqb_spec replacement search) as [Heq|_]; [congruence | reflexivity].
  - destruct (Ascii.eqb_spec c search); [contradiction | exact IH].
Qed.

Lemma occurrences_In (c : ascii) (s : string) :
  1 <= occurrences c s <-> In c (Js.chars s).
Proof.
  induction s as [|c' s IH]; simpl.
  - split; [lia | contradiction].
  - destruct (Ascii.eqb_spec c' c) as [->|Hc]; simpl.
    + split; [auto | lia].
    + rewrite IH. split; [auto | intros [?|?]; [contradiction | assumption]].
Qed.

Lemma chars_append (a b : string) :
  Js.chars (a ++ b)%string = Js.chars a ++ Js.chars b.
Proof. induction a as [|c a IH]; simpl; [reflexivity | now rewrite IH]. Qed.

(** X15. What the room name sanitizer leaves behind.  The sanitized name has
    the length of the name and exactly one space fewer (none fewer when there
    was none), so a name with two or more spaces still holds a space when it
    is used as room identifier.  And the sanitizer merges names: a name with
    one space and the same name with a hyphen in its place select the same
    room. *)
Theorem sanitized_room_names :
  (forall roomName,
     String.length (Js.replace " " "-" roomName) = String.length roomName) /\
  (forall roomName,
     occurrences " " (Js.replace " " "-" roomName) = pred (occurrences " " roomName)) /\
  (forall roomName, 2 <= occurrences " " roomName ->
     In " "%char (Js.chars (Js.replace " " "-" roomName))) /\
  (forall pre post,
     ~ In " "%char (Js.chars pre) -> ~ In " "%char (Js.chars post) ->
     (pre ++ String " " post)%string <> (pre ++ String "-" post)%string /\
     to _socket (Js.replace " " "-" (pre ++ String " " post)%string)
     = to _socket (Js.replace " " "-" (pre ++ String "-" post)%string)).
Proof.
  assert (Hneq : " "%char <> "-"%char) by discriminate.
  split; [|split; [|split]].
  - intros roomName. apply length_replace.
  - intros roomName. now apply occurrences_replace.
  - intros roomName Htwo. apply occurrences_In.
    rewrite (occurrences_replace " " "-" roomName Hneq). lia.
  - intros pre post Hpre Hpost. split.
    + intros Heq. apply (f_equal (occurrences " ")) in Heq.
      assert (Hocc : forall c rest,
                occurrences " " (pre ++ String c rest)
                = occurrences " " pre + occurrences " " (String c rest)).
      { intros c rest. clear. induction pre as [|c' pre' IH]; simpl; [reflexivity|].
        rewrite IH. simpl. lia. }
      rewrite !Hocc in Heq. simpl in Heq. lia.
    + f_equal. rewrite replace_first by assumption.
      apply eq_sym, replace_without.
      rewrite chars_append. simpl. intros Hin.
      apply in_app_or in Hin. destruct Hin as [Hin|[Hin|Hin]];
        [now apply Hpre | discriminate | now apply Hpost].
Qed.

Lemma sanitized_room_names_witness :
  In " "%char (Js.chars (Js.replace " " "-" "Read Only Token")) /\
  to _socket (Js.replace " " "-" "night shift")
  = to _socket (Js.replace " " "-" "night-shift").
Proof.
  destruct sanitized_room_names as (_ & _ & Hleft & Hmerge).
  split.
  - apply Hleft. simpl. lia.
  - apply (Hmerge "night" "shift"); vm_compute; intuition discriminate.
Defined.

(** ** The two surfaces side by side *)

(** X16. [raw] has neither the payload guard nor the permission filter of
    [emit]: whatever the data, falsy values included, it makes exactly one
    emission carrying [{ data }], asks no strategy, generates no ability and
    calls no pipeline step, and it returns or throws as the socket's [emit]
    does; on a falsy payload [emit] with the same arguments does nothing. *)
Theorem raw_is_unguarded {W Ability : Type} (host : Host W Ability)
  (event : string) (schema : Schema) (data : Js.Value)
  (rooms : option (list string)) (w : W) :
  let o := raw host event data rooms w in
  (exists target,
     emissions (trace o) =
     [CEmit target event (Js.wrap_data data) (result o)]) /\
  List.length (trace o) = 1 /\
  asked (trace o) = [] /\
  ability_generations (trace o) = [] /\
  can_checks (trace o) = [] /\
  pipeline_calls (trace o) = [] /\
  (Js.to_boolean data = false ->
   trace (emit host event schema data w) = [] /\ emissions (trace o) <> []).
Proof.
  cbv zeta. unfold raw, call_emit, call. simpl.
  split; [eauto|]. repeat split.
  - now rewrite emit_falsy.
  - discriminate.
Qed.

Lemma raw_is_unguarded_witness :
  trace (emit Demo.host "update" Demo.article Js.Null tt) = [] /\
  emissions (trace (raw Demo.host "update" Js.Null None tt)) <> [].
Proof.
  destruct (raw_is_unguarded Demo.host "update" Demo.article Js.Null None tt)
    as (_ & _ & _ & _ & _ & _ & Hfalsy).
  apply Hfalsy. reflexivity.
Defined.
